(** * Select.vue: the selection and keyboard controller of vue3-select-component

    A shallow embedding of the [<script setup>] block of [src/Select.vue].

    - The reactive cells [selected], [search], [menuOpen] and [focusedOption]
      are the fields of [State]; a [computed] is the function of props and
      state that its body denotes, evaluated where it is read. A write to
      [search], [menuOpen] or [focusedOption] is seen by every read that
      follows it in the same handler.
    - [selected] is made by [defineModel]. When the host passes an
      [update:modelValue] listener, as [v-model] does, an assignment to
      [selected.value] only emits [update:modelValue]: the host feeds the
      value back with its next render, so the handler that made the
      assignment still reads the old value, and the next handler finds the
      new one. Without the listener the assignment is local and is read back
      at once. A [push] onto the selected array changes the array in place
      and is read back at once under both bindings. The state a handler
      returns is the state the next handler finds; the two reads of the
      model that follow an assignment in the same handler (the payload in
      [clear], [hasSelectedValue] in [handleNavigation]) go through
      [readAfterAssignment].
    - [emit] appends to a log of notifications, oldest first.
    - DOM calls ([preventDefault], [focus], [blur], menu positioning) carry
      no controller state and are left out.
    - Array indices are [Z], as [findIndex] and [reduce] produce them,
      with [-1] for "none". *)

From Stdlib Require Import ZArith Lia Ascii String List Bool.
From stdpp Require Import base option list strings.
Import ListNotations.

Local Open Scope string_scope.
Local Open Scope list_scope.
Local Open Scope Z_scope.

(** ** Values *)

(** What the script asks of an [OptionValue]: strict equality [===] and the
    truth value [!!v]. *)
Class JsValue (V : Type) := {
  js_eq_dec :: EqDecision V;
  truthy : V → bool;
}.

(** Numbers: every number but 0 is truthy. *)
#[export] Instance Z_JsValue : JsValue Z :=
  {| truthy := λ n, negb (n =? 0)%Z |}.

(** Strings: every string but the empty one is truthy. *)
#[export] Instance string_JsValue : JsValue string :=
  {| truthy := λ s, negb (String.eqb s "") |}.

(** Modelled from the spec: the [Option] type of [./types], which the script
    imports; [{ value, label, groupName?, disabled? }]. An absent [disabled]
    reads as [false] everywhere the script tests it. *)
Record Option (V : Type) : Type := mkOption {
  value : V;
  label : string;
  groupName : option string;
  disabled : bool;
}.
Arguments mkOption {V} _ _ _ _.
Arguments value {V} _.
Arguments label {V} _.
Arguments groupName {V} _.
Arguments disabled {V} _.

(** The props the script reads. The presentation-only ones (placeholder,
    isClearable, isLoading, teleport, inputId, aria) are not modelled. *)
Record Props (V : Type) : Type := mkProps {
  options : list (Option V);
  displayedOptions : option (list (Option V));
  isDisabled : bool;
  isGrouped : bool;
  isSearchable : bool;
  isMulti : bool;
  shouldAutofocusOption : bool;
  closeOnSelect : bool;
  filterBy : Option V → string → string → bool;
  getOptionLabel : Option V → string;
  getMultiValueLabel : Option V → string;
  (** The host passes an [onUpdate:modelValue] listener beside [modelValue],
      as [v-model] does. *)
  onUpdateModelValue : bool;
}.
Arguments mkProps {V} _ _ _ _ _ _ _ _ _ _ _ _.
Arguments options {V} _.
Arguments displayedOptions {V} _.
Arguments isDisabled {V} _.
Arguments isGrouped {V} _.
Arguments isSearchable {V} _.
Arguments isMulti {V} _.
Arguments shouldAutofocusOption {V} _.
Arguments closeOnSelect {V} _.
Arguments filterBy {V} _ _ _ _.
Arguments getOptionLabel {V} _ _.
Arguments getMultiValueLabel {V} _ _.
Arguments onUpdateModelValue {V} _.

(** The content of the [selected] model: [OptionValue | OptionValue[]],
    which [clear] and Backspace also set to [undefined], and which a host
    may initialise with [null]. *)
Inductive ModelValue (V : Type) : Type :=
  | MUndefined
  | MNull
  | MScalar (v : V)
  | MArray (vs : list V).
Arguments MUndefined {V}.
Arguments MNull {V}.
Arguments MScalar {V} _.
Arguments MArray {V} _.

Record State (V : Type) : Type := mkState {
  selected : ModelValue V;
  search : string;
  menuOpen : bool;
  focusedOption : Z;
}.
Arguments mkState {V} _ _ _ _.
Arguments selected {V} _.
Arguments search {V} _.
Arguments menuOpen {V} _.
Arguments focusedOption {V} _.

(** What a read sees in a handler that was entered in state [entry], has
    assigned [selected.value] since and has reached state [now]: the model
    of [entry] when the host listens to [update:modelValue], the model of
    [now] when the assignment is local. *)
Definition readAfterAssignment {V} (props : Props V) (entry now : State V) : State V :=
  if onUpdateModelValue props
  then mkState (selected entry) (search now) (menuOpen now) (focusedOption now)
  else now.

(** Payload of [optionDeselected]: [GenericOption | null] by its type;
    [selectedOptions.value[0]] of an empty array is [undefined]. *)
Inductive Payload (V : Type) : Type :=
  | PNull
  | PUndefined
  | POption (o : Option V).
Arguments PNull {V}.
Arguments PUndefined {V}.
Arguments POption {V} _.

Inductive Emit (V : Type) : Type :=
  | EmitOptionSelected (o : Option V)
  | EmitOptionDeselected (p : Payload V)
  | EmitSearch (s : string).
Arguments EmitOptionSelected {V} _.
Arguments EmitOptionDeselected {V} _.
Arguments EmitSearch {V} _.

(** The two fields of a [KeyboardEvent] that [handleNavigation] reads. *)
Record KeyboardEvent : Type := mkKey {
  key : string;
  code : string;
}.

Definition ArrowDown : KeyboardEvent := {| key := "ArrowDown"; code := "ArrowDown" |}.
Definition ArrowUp : KeyboardEvent := {| key := "ArrowUp"; code := "ArrowUp" |}.
Definition Enter : KeyboardEvent := {| key := "Enter"; code := "Enter" |}.
Definition Space : KeyboardEvent := {| key := " "; code := "Space" |}.
Definition Escape : KeyboardEvent := {| key := "Escape"; code := "Escape" |}.
Definition Backspace : KeyboardEvent := {| key := "Backspace"; code := "Backspace" |}.
Definition Tab : KeyboardEvent := {| key := "Tab"; code := "Tab" |}.

(** ** Array operations *)

Section Arrays.
Context {A : Type}.

(** [Array.prototype.findIndex] with the (element, index) callback. *)
Fixpoint findIndexFrom (f : A → Z → bool) (i : Z) (l : list A) : Z :=
  match l with
  | [] => -1
  | x :: l' => if f x i then i else findIndexFrom f (i + 1) l'
  end.

Definition findIndex (f : A → Z → bool) (l : list A) : Z :=
  findIndexFrom f 0 l.

(** [Array.prototype.reduce] with the (acc, element, index) callback and an
    initial value. *)
Fixpoint reduceFrom {B : Type} (f : B → A → Z → B) (i : Z) (l : list A) (acc : B) : B :=
  match l with
  | [] => acc
  | x :: l' => reduceFrom f (i + 1) l' (f acc x i)
  end.

Definition reduce {B : Type} (f : B → A → Z → B) (l : list A) (init : B) : B :=
  reduceFrom f 0 l init.

(** [l[i]]: [undefined] (here [None]) when [i] is negative or past the end. *)
Definition elementAt (l : list A) (i : Z) : option A :=
  if i <? 0 then None else l !! Z.to_nat i.

(** [l.slice(0, -1)]: all but the last element. *)
Definition sliceInit (l : list A) : list A :=
  take (length l - 1)%nat l.
End Arrays.

Section Values.
Context {V : Type} `{JsValue V}.

(** [vs.includes(v)] *)
Fixpoint includes (vs : list V) (v : V) : bool :=
  match vs with
  | [] => false
  | x :: vs' => if bool_decide (x = v) then true else includes vs' v
  end.

(** The cast [selected.value as OptionValue[]] of the multi-mode paths.
    The model's validator asks for an array when [isMulti] is set; a run
    that reads anything else through the cast is outside this model and
    yields [None]. *)
Definition asArray (m : ModelValue V) : option (list V) :=
  match m with
  | MArray vs => Some vs
  | _ => None
  end.

(** [option.value === selected.value] *)
Definition valueIs (m : ModelValue V) (o : Option V) : bool :=
  match m with
  | MScalar v => bool_decide (value o = v)
  | _ => false
  end.

(** [!!selected.value]; an array, even an empty one, is truthy. *)
Definition modelTruthy (m : ModelValue V) : bool :=
  match m with
  | MUndefined | MNull => false
  | MScalar v => truthy v
  | MArray _ => true
  end.
End Values.

(** [!!o.groupName] *)
Definition hasGroupName {V} (o : Option V) : bool :=
  match groupName o with
  | Some s => negb (String.eqb s "")
  | None => false
  end.

(** [o.groupName || "default"] *)
Definition groupKey {V} (o : Option V) : string :=
  match groupName o with
  | Some s => if String.eqb s "" then "default" else s
  | None => "default"
  end.

(** ** [Object.groupBy] and [Object.keys] *)

Section Grouping.
Context {A : Type}.

(** One step of [Object.groupBy]: push [x] onto the group of key [k],
    creating the property at the end when it is new. The association list
    keeps the properties in creation order. *)
Fixpoint groupAdd (k : string) (x : A) (g : list (string * list A)) : list (string * list A) :=
  match g with
  | [] => [(k, [x])]
  | (k', xs) :: g' =>
      if String.eqb k k' then (k', xs ++ [x]) :: g' else (k', xs) :: groupAdd k x g'
  end.

Definition groupBy (keyOf : A → string) (l : list A) : list (string * list A) :=
  fold_left (λ g x, groupAdd (keyOf x) x g) l [].

(** [grouped[k]] *)
Fixpoint property (k : string) (g : list (string * list A)) : option (list A) :=
  match g with
  | [] => None
  | (k', xs) :: g' => if String.eqb k k' then Some xs else property k g'
  end.
End Grouping.

(** A property key is an array index when it is the canonical decimal form
    of an integer below 2^32 - 1. *)
Definition digitOf (a : ascii) : option N :=
  let n := N_of_ascii a in
  if ((48 <=? n) && (n <=? 57))%N then Some (n - 48)%N else None.

Fixpoint decimal (s : string) (acc : N) : option N :=
  match s with
  | EmptyString => Some acc
  | String a s' =>
      match digitOf a with
      | Some d => decimal s' (10 * acc + d)%N
      | None => None
      end
  end.

Definition arrayIndex (s : string) : option N :=
  match s with
  | EmptyString => None
  | String a s' =>
      if Ascii.eqb a "0" && negb (String.eqb s' "") then None
      else match decimal s 0 with
           | Some n => if (n <? 4294967295)%N then Some n else None
           | None => None
           end
  end.

Fixpoint insertIndex (e : N * string) (l : list (N * string)) : list (N * string) :=
  match l with
  | [] => [e]
  | e' :: l' => if (fst e <? fst e')%N then e :: l else e' :: insertIndex e l'
  end.

(** [Object.keys]: the array-index keys in ascending numeric order, then the
    other keys in creation order. *)
Definition objectKeys {A} (g : list (string * list A)) : list string :=
  let keys := map fst g in
  let indices := omap (λ k, match arrayIndex k with Some n => Some (n, k) | None => None end) keys in
  let names := List.filter (λ k, match arrayIndex k with Some _ => false | None => true end) keys in
  map snd (foldr insertIndex [] indices) ++ names.

(** An element of [availableOptionsGrouped]. *)
Record OptionGroup (V : Type) : Type := mkGroup {
  group_name : string;
  group_options : list (Option V);
}.
Arguments mkGroup {V} _ _.
Arguments group_name {V} _.
Arguments group_options {V} _.

(** ** Computed properties *)

Section Computed.
Context {V : Type} `{JsValue V}.
Context (props : Props V) (st : State V).

(** Remove already selected values from the list of options, when in
    multi-select mode. *)
Definition filterMultiSelectedValues (opts : list (Option V)) : option (list (Option V)) :=
  match asArray (selected st) with
  | Some vs => Some (List.filter (λ o, negb (includes vs (value o))) opts)
  | None => None
  end.

Definition availableOptions : option (list (Option V)) :=
  let opts := default (options props) (displayedOptions props) in
  if isSearchable props && negb (String.eqb (search st) "") then
    let matchingOptions :=
      List.filter (λ o,
        let optionLabel :=
          if isMulti props then getMultiValueLabel props o else getOptionLabel props o in
        filterBy props o optionLabel (search st)) opts in
    if isMulti props then filterMultiSelectedValues matchingOptions else Some matchingOptions
  else
    if isMulti props then filterMultiSelectedValues opts else Some opts.

Definition isGroupingEnabled : option bool :=
  if isGrouped props then
    match availableOptions with
    | Some avail => Some (existsb hasGroupName avail)
    | None => None
    end
  else Some false.

Definition availableOptionsGrouped : option (list (OptionGroup V)) :=
  match isGroupingEnabled, availableOptions with
  | Some enabled, Some avail =>
      if negb enabled then Some [mkGroup "default" avail]
      else
        let grouped := groupBy groupKey avail in
        Some (map (λ name, mkGroup name (default [] (property name grouped)))
                  (objectKeys grouped))
  | _, _ => None
  end.

Definition availableOptionsGroupedFlat : option (list (Option V)) :=
  match availableOptionsGrouped with
  | Some groups => Some (fold_left (λ flat grouped, flat ++ group_options grouped) groups [])
  | None => None
  end.

(** The array holds [undefined] (here [None]) where the multi-mode [find]
    misses. *)
Definition selectedOptions : list (option (Option V)) :=
  match isMulti props, selected st with
  | true, MArray vs =>
      map (λ v, List.find (λ o, bool_decide (value o = v)) (options props)) vs
  | _, m =>
      match List.find (valueIs m) (options props) with
      | Some found => [Some found]
      | None => []
      end
  end.
End Computed.

(** ** Handlers

    A handler runs on the state, may append notifications, and yields [None]
    when it reads the model through the array cast while it holds no array. *)

Definition Handler (V A : Type) : Type :=
  State V → option (A * State V * list (Emit V)).

#[export] Instance handler_ret {V} : MRet (Handler V) :=
  λ A a st, Some (a, st, []).

#[export] Instance handler_bind {V} : MBind (Handler V) :=
  λ A B k m st,
    match m st with
    | Some (a, st1, out1) =>
        match k a st1 with
        | Some (b, st2, out2) => Some (b, st2, out1 ++ out2)
        | None => None
        end
    | None => None
    end.

Section Cells.
Context {V : Type}.

Definition getState : Handler V (State V) := λ st, Some (st, st, []).

(** Read a computed property or a cast. *)
Definition read {A} (c : State V → option A) : Handler V A :=
  λ st, match c st with Some a => Some (a, st, []) | None => None end.

Definition emit (e : Emit V) : Handler V unit := λ st, Some (tt, st, [e]).

Definition setSelected (m : ModelValue V) : Handler V unit :=
  λ st, Some (tt, mkState m (search st) (menuOpen st) (focusedOption st), []).

Definition setSearch (s : string) : Handler V unit :=
  λ st, Some (tt, mkState (selected st) s (menuOpen st) (focusedOption st), []).

Definition setMenuOpen (b : bool) : Handler V unit :=
  λ st, Some (tt, mkState (selected st) (search st) b (focusedOption st), []).

Definition setFocusedOption (i : Z) : Handler V unit :=
  λ st, Some (tt, mkState (selected st) (search st) (menuOpen st) i, []).

(** [if (b) { h }] *)
Definition when (b : bool) (h : Handler V unit) : Handler V unit :=
  if b then h else mret tt.
End Cells.

Section Script.
Context {V : Type} `{JsValue V}.
Context (props : Props V).

Definition openMenu : Handler V unit :=
  setMenuOpen true;;
  when (shouldAutofocusOption props)
    (setFocusedOption (findIndex (λ o _, negb (disabled o)) (options props))).

Definition closeMenu : Handler V unit :=
  setMenuOpen false;;
  setSearch "".

Definition toggleMenu : Handler V unit :=
  st ← getState;
  if menuOpen st then closeMenu else openMenu.

Definition setOption (o : Option V) : Handler V unit :=
  if disabled o then mret tt
  else
    (if isMulti props then
       vs ← read (λ st, asArray (selected st));
       setSelected (MArray (vs ++ [value o]))
     else
       setSelected (MScalar (value o)));;
    emit (EmitOptionSelected o);;
    setSearch "";;
    when (closeOnSelect props) (setMenuOpen false).

Definition removeOption (o : Option V) : Handler V unit :=
  when (isMulti props && negb (isDisabled props))
    (vs ← read (λ st, asArray (selected st));
     setSelected (MArray (List.filter (λ v, negb (bool_decide (v = value o))) vs));;
     emit (EmitOptionDeselected (POption o))).

(** [selectedOptions.value[0]] as a payload. *)
Definition firstSelected (st : State V) : Payload V :=
  match selectedOptions props st with
  | Some o :: _ => POption o
  | _ => PUndefined
  end.

Definition clear : Handler V unit :=
  (if isMulti props then
     setSelected (MArray []);;
     emit (EmitOptionDeselected PNull)
   else
     entry ← getState;
     setSelected MUndefined;;
     now ← getState;
     emit (EmitOptionDeselected (firstSelected (readAfterAssignment props entry now))));;
  setMenuOpen false;;
  setSearch "".

(** [hasSelectedValue] of [handleNavigation]. *)
Definition hasSelectedValue (st : State V) : option bool :=
  if isMulti props then
    match asArray (selected st) with
    | Some vs => Some (0 <? length vs)%nat
    | None => None
    end
  else Some (modelTruthy (selected st)).

Definition handleNavigation (e : KeyboardEvent) : Handler V unit :=
  st0 ← getState;
  when (menuOpen st0)
    (let currentIndex := focusedOption st0 in
     when (String.eqb (key e) "ArrowDown")
       (flat ← read (availableOptionsGroupedFlat props);
        let nextOptionIndex :=
          findIndex (λ o i, negb (disabled o) && (currentIndex <? i)) flat in
        let firstOptionIndex := findIndex (λ o _, negb (disabled o)) flat in
        setFocusedOption
          (if nextOptionIndex =? -1 then firstOptionIndex else nextOptionIndex));;
     when (String.eqb (key e) "ArrowUp")
       (flat ← read (availableOptionsGroupedFlat props);
        let prevOptionIndex :=
          reduce (λ acc o i, if negb (disabled o) && (i <? currentIndex) then i else acc)
                 flat (-1) in
        let lastOptionIndex :=
          reduce (λ acc o i, if negb (disabled o) then i else acc) flat (-1) in
        setFocusedOption
          (if prevOptionIndex =? -1 then lastOptionIndex else prevOptionIndex));;
     when (String.eqb (key e) "Enter")
       (flat ← read (availableOptionsGroupedFlat props);
        match elementAt flat currentIndex with
        | Some selectedOption => setOption selectedOption
        | None => mret tt
        end);;
     (* When pressing space with menu open but no search, select the
        focused option. *)
     st1 ← getState;
     when (String.eqb (code e) "Space" && (String.length (search st1) =? 0)%nat)
       (flat ← read (availableOptionsGroupedFlat props);
        match elementAt flat currentIndex with
        | Some selectedOption => setOption selectedOption
        | None => mret tt
        end);;
     when (String.eqb (key e) "Escape")
       (setMenuOpen false;;
        setSearch "");;
     (* In multi mode the branches above have only pushed onto the array;
        in single mode they may have assigned the model. *)
     hasSelected ← read (λ now, hasSelectedValue
                                  (if isMulti props then now
                                   else readAfterAssignment props st0 now));
     (* When pressing backspace with no search, remove the last selected
        option. *)
     st2 ← getState;
     when (String.eqb (key e) "Backspace"
           && (String.length (search st2) =? 0)%nat && hasSelected)
       (if isMulti props then
          vs ← read (λ st, asArray (selected st));
          setSelected (MArray (sliceInit vs))
        else
          setSelected MUndefined)).

(** When pressing space inside the input, open the menu only if the search
    is empty. *)
Definition handleInputSpace : Handler V unit :=
  st ← getState;
  when (negb (menuOpen st) && (String.length (search st) =? 0)%nat) openMenu.

Definition handleInputKeydown (e : KeyboardEvent) : Handler V unit :=
  if String.eqb (key e) "Tab" then closeMenu
  else when (String.eqb (key e) "Space") handleInputSpace.

(** [outside]: the container is mounted and does not contain the target of
    the click. *)
Definition handleClickOutside (outside : bool) : Handler V unit :=
  when outside
    (setMenuOpen false;;
     setSearch "").

(** The callback of [watch(() => search.value, ...)]. *)
Definition onSearchChange : Handler V unit :=
  st ← getState;
  emit (EmitSearch (search st));;
  (* When starting to type, open the menu automatically. *)
  when (negb (String.eqb (search st) "") && negb (menuOpen st)) openMenu.

(** A handler followed by the watcher, which runs when the handler has
    changed [search]. *)
Definition withWatcher (h : Handler V unit) : Handler V unit :=
  st0 ← getState;
  h;;
  st1 ← getState;
  when (negb (String.eqb (search st1) (search st0))) onSearchChange.
End Script.

(** ** Entry points

    The handlers as the template and the document listeners bind them, each
    followed by the watcher. *)
Inductive Action (V : Type) : Type :=
  | DocumentKeydown (e : KeyboardEvent)  (* document keydown: handleNavigation *)
  | DocumentClick (outside : bool)       (* document click: handleClickOutside *)
  | InputKeydown (e : KeyboardEvent)     (* @keydown="handleInputKeydown" *)
  | InputMousedown                       (* @mousedown="openMenu()" *)
  | InputText (s : string)               (* v-model="search" *)
  | SelectOption (o : Option V)          (* @select="setOption(option)" *)
  | RemoveTag (o : Option V)             (* @click="removeOption(selectedOption)" *)
  | ClickClear                           (* @click="clear" *)
  | ClickDropdown                        (* @click="toggleMenu" *)
  | ClickSingleValue.                    (* @click="!props.isDisabled ? openMenu(...) : null" *)
Arguments DocumentKeydown {V} _.
Arguments DocumentClick {V} _.
Arguments InputKeydown {V} _.
Arguments InputMousedown {V}.
Arguments InputText {V} _.
Arguments SelectOption {V} _.
Arguments RemoveTag {V} _.
Arguments ClickClear {V}.
Arguments ClickDropdown {V}.
Arguments ClickSingleValue {V}.

Definition perform {V} `{JsValue V} (props : Props V) (a : Action V) : Handler V unit :=
  withWatcher props
    match a with
    | DocumentKeydown e => handleNavigation props e
    | DocumentClick outside => handleClickOutside outside
    | InputKeydown e => handleInputKeydown props e
    | InputMousedown => openMenu props
    | InputText s => setSearch s
    | SelectOption o => setOption props o
    | RemoveTag o => removeOption props o
    | ClickClear => clear props
    | ClickDropdown => toggleMenu props
    | ClickSingleValue => when (negb (isDisabled props)) (openMenu props)
    end.

(** The actions that assign [focusedOption] while the menu is open: the two
    arrow keys, and the two bindings that call [openMenu] directly. *)
Definition assignsFocus {V} (a : Action V) : bool :=
  match a with
  | DocumentKeydown e => String.eqb (key e) "ArrowDown" || String.eqb (key e) "ArrowUp"
  | InputMousedown | ClickSingleValue => true
  | _ => false
  end.

(** ** Vocabulary of the statements *)

(** The focused index is the sentinel or an index of the flat list. *)
Definition focusResolved {V} `{JsValue V} (props : Props V) (st : State V) : Prop :=
  ∃ flat, availableOptionsGroupedFlat props st = Some flat
          ∧ (focusedOption st = -1 ∨ 0 ≤ focusedOption st < Z.of_nat (length flat)).

(** An enabled option sits at index [i] of the flat list. *)
Definition enabledAt {V} (flat : list (Option V)) (i : Z) : Prop :=
  ∃ o, elementAt flat i = Some o ∧ disabled o = false.

(** Removal of the first occurrence of [v] only, as the specification words
    [deselect]; [removeOption] is compared with it. *)
Fixpoint removeFirstOccurrence {V} `{JsValue V} (v : V) (vs : list V) : list V :=
  match vs with
  | [] => []
  | x :: vs' => if bool_decide (x = v) then vs' else x :: removeFirstOccurrence v vs'
  end.

(** The menu is open or the search text is empty: the states in which the
    watcher of [search] does not open the menu. *)
Definition quiet {V} (st : State V) : Prop :=
  menuOpen st = true ∨ search st = "".

(** A handler that never assigns [focusedOption] and leaves a quiet state
    quiet. *)
Definition keepsFocus {V A} (h : Handler V A) : Prop :=
  ∀ st a st' out, h st = Some (a, st', out) →
    focusedOption st' = focusedOption st ∧ (quiet st → quiet st').

(** The model has the shape of the mode: an array in multi mode. *)
Definition shaped {V} (props : Props V) (st : State V) : Prop :=
  isMulti props = true → ∃ vs, selected st = MArray vs.

(** A handler that returns on every shaped state, in a shaped state. *)
Definition runs {V A} (props : Props V) (h : Handler V A) : Prop :=
  ∀ st, shaped props st → ∃ a st' out, h st = Some (a, st', out) ∧ shaped props st'.

(** ** Sample data

    The options of the statements' concrete runs. [filterBy] is not called
    in them: the search text stays empty. *)
Module Samples.
Definition A : Option string := mkOption "a" "A" None false.
Definition B : Option string := mkOption "b" "B" None false.
Definition C : Option string := mkOption "c" "C" None false.

(** Single mode with the default flags. *)
Definition books : Props string :=
  mkProps [A; B; C] None false false true false true true (λ _ _ _, true) label label true.

(** The same with [shouldAutofocusOption] off. *)
Definition booksNoAutofocus : Props string :=
  mkProps [A; B; C] None false false true false false true (λ _ _ _, true) label label true.

(** The same mounted with [modelValue] alone, without the listener. *)
Definition booksLocal : Props string :=
  mkProps [A; B; C] None false false true false true true (λ _ _ _, true) label label false.

Definition Alice : Option Z := mkOption 1 "Alice" None false.
Definition Bob : Option Z := mkOption 2 "Bob" None false.
Definition Charlie : Option Z := mkOption 3 "Charlie" None false.
Definition David : Option Z := mkOption 4 "David" None false.
Definition Nobody : Option Z := mkOption 0 "Nobody" None false.

(** Multi mode, the menu staying open after a selection. *)
Definition users : Props Z :=
  mkProps [Alice; Bob; Charlie; David] None false false true true true false
          (λ _ _ _, true) label label true.

(** The same on a disabled control. *)
Definition usersDisabled : Props Z :=
  mkProps [Alice; Bob; Charlie; David] None true false true true true false
          (λ _ _ _, true) label label true.

(** Single mode over numeric values, one of them 0. *)
Definition owner : Props Z :=
  mkProps [Nobody; Alice; Bob] None false false true false true true
          (λ _ _ _, true) label label true.

(** A freshly mounted single-mode control. *)
Definition mounted : State string := mkState MNull "" false (-1).

(** [A] selected, the menu open on it. *)
Definition pickedA : State string := mkState (MScalar "a") "" true 0.

(** The menu open, nothing selected, no option focused. *)
Definition unfocused : State string := mkState MNull "" true (-1).

(** Alice, Bob and again Alice selected. *)
Definition aliceTwice : State Z := mkState (MArray [1; 2; 1]) "" true 0.

(** Alice and Charlie selected. *)
Definition aliceCharlie : State Z := mkState (MArray [1; 3]) "" true 0.

(** Nothing selected, the last of the four options focused. *)
Definition onDavid : State Z := mkState (MArray []) "" true 3.

(** The option of value 0 selected. *)
Definition nobodyOwns : State Z := mkState (MScalar 0) "" true 0.
End Samples.

(** ** Vocabulary of the further statements *)

(** [Array.isArray(value)] *)
Definition isArray {V} (m : ModelValue V) : bool :=
  match m with
  | MArray _ => true
  | _ => false
  end.

(** The validator of the model:
    [_props.isMulti ? Array.isArray(value) : !Array.isArray(value)]. *)
Definition validator {V} (props : Props V) (m : ModelValue V) : bool :=
  if isMulti props then isArray m else negb (isArray m).

Definition valid {V} (props : Props V) (st : State V) : Prop :=
  validator props (selected st) = true.

(** The entry points of a list of actions, one after the other. *)
Fixpoint performAll {V} `{JsValue V} (props : Props V) (l : list (Action V)) : Handler V unit :=
  match l with
  | [] => mret tt
  | a :: l' => perform props a;; performAll props l'
  end.

(** A handler that keeps [P] when it returns. *)
Definition preserves {V A} (P : State V → Prop) (h : Handler V A) : Prop :=
  ∀ st a st' out, h st = Some (a, st', out) → P st → P st'.

(** A handler all of whose notifications satisfy [Q]. *)
Definition emitsOnly {V A} (Q : Emit V → Prop) (h : Handler V A) : Prop :=
  ∀ st a st' out, h st = Some (a, st', out) → Forall Q out.

(** [optionSelected] with an option that is not disabled. *)
Definition selectionOfEnabled {V} (ev : Emit V) : Prop :=
  ∃ o, ev = EmitOptionSelected o ∧ disabled o = false.

(** The distinct elements of a list, in order of first occurrence. *)
Fixpoint firstOccurrences (l : list string) : list string :=
  match l with
  | [] => []
  | k :: l' => k :: List.filter (λ k', negb (String.eqb k' k)) (firstOccurrences l')
  end.

(** [props.displayedOptions || props.options] *)
Definition baseOptions {V} (props : Props V) : list (Option V) :=
  default (options props) (displayedOptions props).

(** [props.isSearchable && search.value] *)
Definition searching {V} (props : Props V) (st : State V) : bool :=
  isSearchable props && negb (String.eqb (search st) "").

(** The label that [filterBy] is given. *)
Definition optionLabel {V} (props : Props V) (o : Option V) : string :=
  if isMulti props then getMultiValueLabel props o else getOptionLabel props o.

(** ** Further sample data *)
Module Fixtures.
Definition Wonderland : Option string :=
  mkOption "alice" "Alice's Adventures in Wonderland" (Some "Group 1") false.
Definition Earthsea : Option string :=
  mkOption "wizard" "A Wizard of Earthsea" (Some "Group 2") false.
Definition Stone : Option string :=
  mkOption "harry_potter_1" "Harry Potter and the Philosopher's Stone" (Some "Group 1") false.
Definition Chamber : Option string :=
  mkOption "harry_potter_2" "Harry Potter and the Chamber of Secrets" (Some "Group 2") false.

(** Single mode, grouped. *)
Definition library : Props string :=
  mkProps [Wonderland; Earthsea; Stone; Chamber] None false true true false true true
          (λ _ _ _, true) label label true.

(** The menu open on the first book, nothing selected. *)
Definition browsing : State string := mkState MNull "" true 0.

(** [A] selected, the menu open, "ab" typed in the search input. *)
Definition typedAb : State string := mkState (MScalar "a") "ab" true 0.

(** Two options of the same value. *)
Definition Admin : Option Z := mkOption 6 "Admin" None false.
Definition Root : Option Z := mkOption 6 "Root" None false.

(** Multi mode, the last two options sharing the value 6. *)
Definition accounts : Props Z :=
  mkProps [Samples.Alice; Samples.Bob; Admin; Root] None false false true true true false
          (λ _ _ _, true) label label true.

(** Alice and the value 6 selected. *)
Definition aliceSix : State Z := mkState (MArray [1; 6]) "" false (-1).
End Fixtures.

(** * Properties *)

Ltac run_handler :=
  unfold removeOption, clear, setOption, closeMenu, openMenu, toggleMenu,
    handleClickOutside, handleInputKeydown, handleInputSpace, onSearchChange,
    when, read, emit, getState, setSelected, setSearch, setMenuOpen, setFocusedOption;
  unfold mbind, mret, handler_bind, handler_ret; cbn.

Section Properties.
Context {V : Type} `{JsValue V}.

Lemma includes_elem_of (vs : list V) (v : V) : includes vs v = true ↔ v ∈ vs.
Proof.
  induction vs as [|x vs IH]; cbn.
  - split; [discriminate|]. intros Hin. inversion Hin.
  - case_bool_decide as Hx.
    + subst. split; [intros _; left|done].
    + rewrite IH. split; [by right|]. intros Hin. inversion Hin; subst; done.
Qed.

Lemma filter_ne_absent (v : V) (vs : list V) :
  v ∉ vs → List.filter (λ x, negb (bool_decide (x = v))) vs = vs.
Proof.
  induction vs as [|x vs IH]; cbn; [done|].
  intros Hn. case_bool_decide as Hx; cbn.
  - subst. exfalso. apply Hn. left.
  - f_equal. apply IH. intros Hin. apply Hn. by right.
Qed.

Lemma elementAt_lookup {A} (l : list A) (k : nat) : elementAt l (Z.of_nat k) = l !! k.
Proof.
  unfold elementAt. destruct (Z.ltb_spec (Z.of_nat k) 0); [lia|]. by rewrite Nat2Z.id.
Qed.

Lemma elementAt_Some {A} (l : list A) (j : Z) (x : A) :
  elementAt l j = Some x → 0 ≤ j < Z.of_nat (length l) ∧ l !! Z.to_nat j = Some x.
Proof.
  unfold elementAt. destruct (Z.ltb_spec j 0); [discriminate|].
  intros Hl. split; [|done]. apply lookup_lt_Some in Hl. lia.
Qed.

Lemma elementAt_None {A} (l : list A) (j : Z) :
  elementAt l j = None ↔ ¬ (0 ≤ j < Z.of_nat (length l)).
Proof.
  unfold elementAt. destruct (Z.ltb_spec j 0).
  - split; [lia|done].
  - rewrite lookup_ge_None. lia.
Qed.

(** [findIndex] returns -1 when no element passes, and the least passing
    index otherwise. *)
Lemma findIndexFrom_spec {A} (f : A → Z → bool) (l : list A) (i : Z) :
  (findIndexFrom f i l = -1 ∧ ∀ k x, l !! k = Some x → f x (i + Z.of_nat k) = false)
  ∨ (∃ k x, findIndexFrom f i l = i + Z.of_nat k ∧ l !! k = Some x
            ∧ f x (i + Z.of_nat k) = true
            ∧ ∀ k' x', (k' < k)%nat → l !! k' = Some x' → f x' (i + Z.of_nat k') = false).
Proof.
  revert i. induction l as [|a l IH]; intros i; cbn.
  - left. split; [done|]. intros k x Hk. by rewrite lookup_nil in Hk.
  - destruct (f a i) eqn:Hf.
    + right. exists 0%nat, a. rewrite Z.add_0_r. repeat split; try done. intros; lia.
    + destruct (IH (i + 1)) as [[Hr Hall]|(k & x & Hr & Hk & Hfx & Hbefore)].
      * left. split; [done|]. intros [|k] x Hk; cbn in Hk.
        -- inversion Hk; subst. by rewrite Z.add_0_r.
        -- specialize (Hall k x Hk). by replace (i + Z.of_nat (S k)) with (i + 1 + Z.of_nat k) by lia.
      * right. exists (S k), x.
        replace (i + Z.of_nat (S k)) with (i + 1 + Z.of_nat k) by lia.
        repeat split; try done.
        intros [|k'] x' Hlt Hk'; cbn in Hk'.
        -- inversion Hk'; subst. by rewrite Z.add_0_r.
        -- replace (i + Z.of_nat (S k')) with (i + 1 + Z.of_nat k') by lia.
           apply Hbefore; [lia|done].
Qed.

Lemma findIndex_spec {A} (f : A → Z → bool) (l : list A) :
  (findIndex f l = -1 ∧ ∀ j x, elementAt l j = Some x → f x j = false)
  ∨ (∃ x, elementAt l (findIndex f l) = Some x ∧ f x (findIndex f l) = true
          ∧ ∀ j x', j < findIndex f l → elementAt l j = Some x' → f x' j = false).
Proof.
  unfold findIndex.
  destruct (findIndexFrom_spec f l 0) as [[Hr Hall]|(k & x & Hr & Hk & Hfx & Hbefore)].
  - left. split; [done|]. intros j x Hj. apply elementAt_Some in Hj as [Hrange Hj].
    specialize (Hall _ _ Hj). by rewrite Z.add_0_l, Z2Nat.id in Hall by lia.
  - right. rewrite Hr, Z.add_0_l in *. exists x. rewrite elementAt_lookup.
    repeat split; try done.
    intros j x' Hlt Hj. apply elementAt_Some in Hj as [Hrange Hj].
    specialize (Hbefore (Z.to_nat j) x'). rewrite Z2Nat.id in Hbefore by lia.
    apply Hbefore; [lia|done].
Qed.

(** The [reduce] that keeps the last passing index. *)
Lemma reduceFrom_last_spec {A} (P : A → Z → bool) (l : list A) (i acc : Z) :
  let r := reduceFrom (λ acc x i, if P x i then i else acc) i l acc in
  (r = acc ∧ ∀ k x, l !! k = Some x → P x (i + Z.of_nat k) = false)
  ∨ (∃ k x, r = i + Z.of_nat k ∧ l !! k = Some x ∧ P x (i + Z.of_nat k) = true
            ∧ ∀ k' x', (k < k')%nat → l !! k' = Some x' → P x' (i + Z.of_nat k') = false).
Proof.
  revert i acc. induction l as [|a l IH]; intros i acc; cbn.
  - left. split; [done|]. intros k x Hk. by rewrite lookup_nil in Hk.
  - destruct (IH (i + 1) (if P a i then i else acc))
      as [[Hr Hall]|(k & x & Hr & Hk & Hfx & Hafter)].
    + assert (Htail : ∀ k x, l !! k = Some x → P x (i + Z.of_nat (S k)) = false).
      { intros k x Hk. specialize (Hall k x Hk).
        by replace (i + Z.of_nat (S k)) with (i + 1 + Z.of_nat k) by lia. }
      destruct (P a i) eqn:Hf.
      * right. exists 0%nat, a. rewrite Z.add_0_r. repeat split; try done.
        intros [|k'] x' Hlt Hk'; [lia|]. cbn in Hk'. by apply Htail.
      * left. split; [done|]. intros [|k] x Hk; cbn in Hk.
        -- inversion Hk; subst. by rewrite Z.add_0_r.
        -- by apply Htail.
    + right. exists (S k), x.
      replace (i + Z.of_nat (S k)) with (i + 1 + Z.of_nat k) by lia.
      repeat split; try done.
      intros [|k'] x' Hlt Hk'; [lia|]. cbn in Hk'.
      replace (i + Z.of_nat (S k')) with (i + 1 + Z.of_nat k') by lia.
      apply (Hafter k' x'); [lia|done].
Qed.

Lemma reduce_last_spec {A} (P : A → Z → bool) (l : list A) :
  let r := reduce (λ acc x i, if P x i then i else acc) l (-1) in
  (r = -1 ∧ ∀ j x, elementAt l j = Some x → P x j = false)
  ∨ (∃ x, elementAt l r = Some x ∧ P x r = true
          ∧ ∀ j x', r < j → elementAt l j = Some x' → P x' j = false).
Proof.
  unfold reduce.
  destruct (reduceFrom_last_spec P l 0 (-1)) as [[Hr Hall]|(k & x & Hr & Hk & Hfx & Hafter)].
  - left. split; [done|]. intros j x Hj. apply elementAt_Some in Hj as [Hrange Hj].
    specialize (Hall _ _ Hj). by rewrite Z.add_0_l, Z2Nat.id in Hall by lia.
  - right. cbn. rewrite Hr, Z.add_0_l in *. exists x. rewrite elementAt_lookup.
    repeat split; try done.
    intros j x' Hlt Hj. apply elementAt_Some in Hj as [Hrange Hj].
    specialize (Hafter (Z.to_nat j) x'). rewrite Z2Nat.id in Hafter by lia.
    apply Hafter; [lia|done].
Qed.

Lemma availableOptions_multi (props : Props V) (st : State V) (avail : list (Option V)) :
  isMulti props = true → availableOptions props st = Some avail →
  ∃ vs, selected st = MArray vs ∧ ∀ o, o ∈ avail → value o ∉ vs.
Proof.
  intros Hm. unfold availableOptions, filterMultiSelectedValues. rewrite Hm.
  destruct (selected st) as [| | v|vs]; cbn;
    try (destruct (isSearchable props && _); discriminate).
  intros Havail. exists vs. split; [done|].
  intros o Ho Hin. apply includes_elem_of in Hin.
  destruct (isSearchable props && _); inversion Havail; subst;
    apply list_elem_of_In, filter_In in Ho as [_ Ho]; by rewrite Hin in Ho.
Qed.

Lemma flat_hasSelectedValue (props : Props V) (st : State V) (flat : list (Option V)) :
  availableOptionsGroupedFlat props st = Some flat →
  ∃ b, hasSelectedValue props st = Some b.
Proof.
  unfold availableOptionsGroupedFlat, availableOptionsGrouped, isGroupingEnabled, hasSelectedValue.
  destruct (isMulti props) eqn:Hm; [|by eauto].
  destruct (availableOptions props st) as [avail|] eqn:Ha.
  - destruct (availableOptions_multi _ _ _ Hm Ha) as (vs & -> & _). cbn. by eauto.
  - by destruct (isGrouped props).
Qed.

Lemma groupAdd_Forall {A} (S : A → Prop) (k : string) (x : A) (g : list (string * list A)) :
  S x → Forall (λ kv, Forall S kv.2) g → Forall (λ kv, Forall S kv.2) (groupAdd k x g).
Proof.
  intros Hx. induction 1 as [|[k0 xs0] g Hxs Hg IH]; cbn.
  - repeat constructor. done.
  - destruct (String.eqb k k0); constructor; cbn; try done.
    apply Forall_app. split; [done|]. by constructor.
Qed.

Lemma groupBy_Forall {A} (keyOf : A → string) (l : list A) :
  Forall (λ kv, Forall (λ x, x ∈ l) kv.2) (groupBy keyOf l).
Proof.
  unfold groupBy.
  assert (Hgen : ∀ (l0 : list A) g, Forall (λ kv, Forall (λ x, x ∈ l) kv.2) g →
            (∀ x, x ∈ l0 → x ∈ l) →
            Forall (λ kv, Forall (λ x, x ∈ l) kv.2)
                   (fold_left (λ g x, groupAdd (keyOf x) x g) l0 g)).
  { induction l0 as [|a l0 IH]; intros g Hg Hsub; cbn; [done|].
    apply IH.
    - apply groupAdd_Forall; [|done]. apply Hsub. left.
    - intros x Hx. apply Hsub. by right. }
  apply Hgen; [constructor|done].
Qed.

Lemma property_elem_of {A} (k : string) (g : list (string * list A)) (xs : list A) :
  property k g = Some xs → ∃ k', (k', xs) ∈ g.
Proof.
  induction g as [|[k0 xs0] g IH]; cbn; [discriminate|].
  destruct (String.eqb k k0).
  - intros [= <-]. exists k0. left.
  - intros Hp. destruct (IH Hp) as [k' Hk']. exists k'. by right.
Qed.

Lemma flat_elem_of (groups : list (OptionGroup V)) (acc : list (Option V)) (o : Option V) :
  o ∈ fold_left (λ flat grouped, flat ++ group_options grouped) groups acc →
  o ∈ acc ∨ ∃ g, g ∈ groups ∧ o ∈ group_options g.
Proof.
  revert acc. induction groups as [|g groups IH]; intros acc; cbn; [by left|].
  intros Ho. destruct (IH _ Ho) as [Hacc|(g' & Hg' & Hog')].
  - apply elem_of_app in Hacc as [Hacc|Hg]; [by left|].
    right. exists g. split; [left|done].
  - right. exists g'. split; [by right|done].
Qed.

(** Every option of every group, and so of the flat list, is one of
    [availableOptions]. *)
Lemma grouped_elem_of (props : Props V) (st : State V) groups avail :
  availableOptionsGrouped props st = Some groups →
  availableOptions props st = Some avail →
  ∀ g o, g ∈ groups → o ∈ group_options g → o ∈ avail.
Proof.
  unfold availableOptionsGrouped. intros Hg Ha. rewrite Ha in Hg.
  destruct (isGroupingEnabled props st) as [[|]|]; cbn in Hg; [| |discriminate].
  - inversion Hg; subst; clear Hg. intros g o Hin Ho.
    apply list_elem_of_fmap in Hin as (name & -> & _). cbn in Ho.
    destruct (property name (groupBy groupKey avail)) as [xs|] eqn:Hp; cbn in Ho.
    + apply property_elem_of in Hp as [k' Hk'].
      pose proof (groupBy_Forall groupKey avail) as Hall.
      rewrite Forall_forall in Hall. specialize (Hall _ Hk'). cbn in Hall.
      rewrite Forall_forall in Hall. by apply Hall.
    + inversion Ho.
  - inversion Hg; subst; clear Hg. intros g o Hin Ho.
    apply list_elem_of_singleton in Hin. by subst.
Qed.

Lemma flat_elem_of_available (props : Props V) (st : State V) flat avail :
  availableOptionsGroupedFlat props st = Some flat →
  availableOptions props st = Some avail →
  ∀ o, o ∈ flat → o ∈ avail.
Proof.
  unfold availableOptionsGroupedFlat.
  destruct (availableOptionsGrouped props st) as [groups|] eqn:Hg; [|discriminate].
  intros [= <-] Ha o Ho.
  apply flat_elem_of in Ho as [Ho|(g & Hin & Ho)]; [inversion Ho|].
  by eapply grouped_elem_of.
Qed.

Lemma availableOptions_total (props : Props V) (st : State V) :
  (isMulti props = true → ∃ vs, selected st = MArray vs) →
  ∃ avail groups flat,
    availableOptions props st = Some avail
    ∧ availableOptionsGrouped props st = Some groups
    ∧ availableOptionsGroupedFlat props st = Some flat.
Proof.
  intros Hshape.
  assert (Ha : ∃ avail, availableOptions props st = Some avail).
  { unfold availableOptions, filterMultiSelectedValues.
    destruct (isMulti props).
    - destruct Hshape as [vs ->]; [done|]. cbn.
      destruct (isSearchable props && _); eauto.
    - destruct (isSearchable props && _); eauto. }
  destruct Ha as [avail Ha].
  assert (Hg : ∃ groups, availableOptionsGrouped props st = Some groups).
  { unfold availableOptionsGrouped, isGroupingEnabled. rewrite Ha.
    destruct (isGrouped props); cbn; [destruct (existsb hasGroupName avail)|]; cbn; eauto. }
  destruct Hg as [groups Hg].
  exists avail, groups, (fold_left (λ flat grouped, flat ++ group_options grouped) groups []).
  unfold availableOptionsGroupedFlat. by rewrite Hg.
Qed.

(** Without grouping the flat list is [availableOptions] itself. *)
Lemma flat_ungrouped (props : Props V) (st : State V) :
  isGrouped props = false →
  availableOptionsGroupedFlat props st = availableOptions props st.
Proof.
  intros Hg. unfold availableOptionsGroupedFlat, availableOptionsGrouped, isGroupingEnabled.
  rewrite Hg. by destruct (availableOptions props st).
Qed.

Lemma hasSelectedValue_selected (props : Props V) (st st' : State V) :
  selected st' = selected st → hasSelectedValue props st' = hasSelectedValue props st.
Proof. unfold hasSelectedValue. by intros ->. Qed.

(** Where the handler has not touched the model, the read after the branches
    is the read at entry, under both bindings. *)
Lemma hasSelectedValue_seen (props : Props V) (entry now : State V) :
  selected now = selected entry →
  hasSelectedValue props (if isMulti props then now else readAfterAssignment props entry now)
  = hasSelectedValue props entry.
Proof.
  intros Hs. unfold hasSelectedValue, readAfterAssignment.
  destruct (isMulti props), (onUpdateModelValue props); cbn; by rewrite ?Hs.
Qed.

Lemma handleNavigation_closed (props : Props V) (e : KeyboardEvent) (st : State V) :
  menuOpen st = false → handleNavigation props e st = Some (tt, st, []).
Proof. intros Ho. unfold handleNavigation. run_handler. by rewrite Ho. Qed.

Lemma handleNavigation_ArrowDown (props : Props V) (st : State V) flat :
  menuOpen st = true → availableOptionsGroupedFlat props st = Some flat →
  handleNavigation props ArrowDown st =
    Some (tt, mkState (selected st) (search st) (menuOpen st)
               (let nextOptionIndex :=
                  findIndex (λ o i, negb (disabled o) && (focusedOption st <? i)) flat in
                if nextOptionIndex =? -1
                then findIndex (λ o _, negb (disabled o)) flat
                else nextOptionIndex), []).
Proof.
  intros Ho Hf. destruct (flat_hasSelectedValue _ _ _ Hf) as [b Hb].
  unfold handleNavigation. run_handler. rewrite Ho. cbn. rewrite Hf. cbn.
  rewrite hasSelectedValue_seen by done. by rewrite Hb, Ho.
Qed.

Lemma handleNavigation_ArrowUp (props : Props V) (st : State V) flat :
  menuOpen st = true → availableOptionsGroupedFlat props st = Some flat →
  handleNavigation props ArrowUp st =
    Some (tt, mkState (selected st) (search st) (menuOpen st)
               (let prevOptionIndex :=
                  reduce (λ acc o i,
                            if negb (disabled o) && (i <? focusedOption st) then i else acc)
                         flat (-1) in
                if prevOptionIndex =? -1
                then reduce (λ acc o i, if negb (disabled o) then i else acc) flat (-1)
                else prevOptionIndex), []).
Proof.
  intros Ho Hf. destruct (flat_hasSelectedValue _ _ _ Hf) as [b Hb].
  unfold handleNavigation. run_handler. rewrite Ho. cbn. rewrite Hf. cbn.
  rewrite hasSelectedValue_seen by done. by rewrite Hb, Ho.
Qed.

Lemma next_index_spec (flat : list (Option V)) (cur : Z) :
  let r :=
    let nextOptionIndex := findIndex (λ o i, negb (disabled o) && (cur <? i)) flat in
    if nextOptionIndex =? -1
    then findIndex (λ o _, negb (disabled o)) flat
    else nextOptionIndex in
  (enabledAt flat r ∧ cur < r ∧ ∀ j, cur < j < r → ¬ enabledAt flat j)
  ∨ ((∀ j, cur < j → ¬ enabledAt flat j)
     ∧ enabledAt flat r ∧ ∀ j, j < r → ¬ enabledAt flat j)
  ∨ ((∀ j, ¬ enabledAt flat j) ∧ r = -1).
Proof.
  cbn zeta.
  destruct (findIndex_spec (λ o i, negb (disabled o) && (cur <? i)) flat)
    as [[Hn Hnone]|(x & Hx & Hpx & Hbefore)].
  - rewrite Hn. cbn. right.
    assert (Hafter : ∀ j, cur < j → ¬ enabledAt flat j).
    { intros j Hj (o & Ho & Hd). specialize (Hnone _ _ Ho). rewrite Hd in Hnone.
      cbn in Hnone. apply Z.ltb_ge in Hnone. lia. }
    destruct (findIndex_spec (λ o (_ : Z), negb (disabled o)) flat)
      as [[Hf Hall]|(y & Hy & Hpy & Hfirst)].
    + right. split; [|done]. intros j (o & Ho & Hd). specialize (Hall _ _ Ho).
      by rewrite Hd in Hall.
    + left. split; [done|]. split.
      * exists y. split; [done|]. by apply negb_true_iff.
      * intros j Hj (o & Ho & Hd). specialize (Hfirst _ _ Hj Ho). by rewrite Hd in Hfirst.
  - apply andb_true_iff in Hpx as [Hen Hlt]. apply negb_true_iff in Hen.
    apply Z.ltb_lt in Hlt. apply elementAt_Some in Hx as Hrange.
    destruct (Z.eqb_spec (findIndex (λ o i, negb (disabled o) && (cur <? i)) flat) (-1));
      [lia|].
    left. split; [by exists x|]. split; [done|].
    intros j [Hj1 Hj2] (o & Ho & Hd). specialize (Hbefore _ _ Hj2 Ho).
    rewrite Hd in Hbefore. cbn in Hbefore. apply Z.ltb_ge in Hbefore. lia.
Qed.

Lemma prev_index_spec (flat : list (Option V)) (cur : Z) :
  let r :=
    let prevOptionIndex :=
      reduce (λ acc o i, if negb (disabled o) && (i <? cur) then i else acc) flat (-1) in
    if prevOptionIndex =? -1
    then reduce (λ acc o i, if negb (disabled o) then i else acc) flat (-1)
    else prevOptionIndex in
  (enabledAt flat r ∧ r < cur ∧ ∀ j, r < j < cur → ¬ enabledAt flat j)
  ∨ ((∀ j, j < cur → ¬ enabledAt flat j)
     ∧ enabledAt flat r ∧ ∀ j, r < j → ¬ enabledAt flat j)
  ∨ ((∀ j, ¬ enabledAt flat j) ∧ r = -1).
Proof.
  cbn zeta.
  destruct (reduce_last_spec (λ o i, negb (disabled o) && (i <? cur)) flat)
    as [[Hn Hnone]|(x & Hx & Hpx & Hafter)]; cbn zeta in *.
  - rewrite Hn. cbn. right.
    assert (Hbefore : ∀ j, j < cur → ¬ enabledAt flat j).
    { intros j Hj (o & Ho & Hd). specialize (Hnone _ _ Ho). rewrite Hd in Hnone.
      cbn in Hnone. apply Z.ltb_ge in Hnone. lia. }
    destruct (reduce_last_spec (λ o (_ : Z), negb (disabled o)) flat)
      as [[Hf Hall]|(y & Hy & Hpy & Hlast)]; cbn zeta in *.
    + right. split; [|done]. intros j (o & Ho & Hd). specialize (Hall _ _ Ho).
      by rewrite Hd in Hall.
    + left. split; [done|]. split.
      * exists y. split; [done|]. by apply negb_true_iff.
      * intros j Hj (o & Ho & Hd). specialize (Hlast _ _ Hj Ho). by rewrite Hd in Hlast.
  - apply andb_true_iff in Hpx as [Hen Hlt]. apply negb_true_iff in Hen.
    apply Z.ltb_lt in Hlt. apply elementAt_Some in Hx as Hrange.
    destruct (Z.eqb_spec
                (reduce (λ acc o i, if negb (disabled o) && (i <? cur) then i else acc)
                        flat (-1)) (-1)); [lia|].
    left. split; [by exists x|]. split; [done|].
    intros j [Hj1 Hj2] (o & Ho & Hd). specialize (Hafter _ _ Hj1 Ho).
    rewrite Hd in Hafter. cbn in Hafter. apply Z.ltb_ge in Hafter. lia.
Qed.

Lemma state_eta (st : State V) :
  mkState (selected st) (search st) (menuOpen st) (focusedOption st) = st.
Proof. by destruct st. Qed.

(** *** Enter and Space without a focused option *)

(** C9: with the menu open and the focused index -1 or outside the flat
    list, a keydown of Enter, or of Space, reads no option from the list and
    returns in the state it started from, with nothing emitted; the watcher
    that follows has nothing to report either. *)
Theorem enter_without_focus (props : Props V) (e : KeyboardEvent) (st : State V)
    (flat : list (Option V)) :
  menuOpen st = true →
  availableOptionsGroupedFlat props st = Some flat →
  focusedOption st = -1 ∨ ¬ (0 ≤ focusedOption st < Z.of_nat (length flat)) →
  key e = "Enter" ∨ (code e = "Space" ∧ key e = " ") →
  handleNavigation props e st = Some (tt, st, [])
  ∧ withWatcher props (handleNavigation props e) st = Some (tt, st, []).
Proof.
  intros Ho Hf Hfocus Hkey.
  assert (Hnone : elementAt flat (focusedOption st) = None).
  { apply elementAt_None. destruct Hfocus as [->|Hout]; [lia|done]. }
  destruct (flat_hasSelectedValue _ _ _ Hf) as [b Hb].
  assert (Hrun : handleNavigation props e st = Some (tt, st, [])).
  { destruct e as [k c]. cbn in Hkey.
    unfold handleNavigation. run_handler. rewrite Ho. cbn.
    destruct Hkey as [->|[-> ->]]; cbn.
    - rewrite Hf. cbn. rewrite Hnone. cbn.
      destruct (String.eqb c "Space" && _); cbn;
        rewrite ?Hf; cbn; rewrite ?Hnone; cbn;
        rewrite hasSelectedValue_seen by done; by rewrite Hb.
    - destruct (String.length (search st) =? 0)%nat; cbn;
        rewrite ?Hf; cbn; rewrite ?Hnone; cbn;
        rewrite hasSelectedValue_seen by done; by rewrite Hb. }
  split; [done|].
  unfold withWatcher. run_handler. rewrite Hrun. cbn. by rewrite String.eqb_refl.
Qed.

(** *** Backspace *)

Lemma sliceInit_snoc {A} (l : list A) (x : A) : sliceInit (l ++ [x]) = l.
Proof.
  unfold sliceInit. rewrite length_app. cbn.
  replace (length l + 1 - 1)%nat with (length l) by lia.
  by rewrite take_app_length.
Qed.

Lemma backspace_multi_slice (props : Props V) (st : State V) (vs : list V) :
  isMulti props = true → menuOpen st = true → search st = "" →
  selected st = MArray vs → vs ≠ [] →
  handleNavigation props Backspace st =
    Some (tt, mkState (MArray (sliceInit vs)) "" true (focusedOption st), []).
Proof.
  intros Hm Ho Hs Hsel Hne. destruct vs as [|v vs]; [done|].
  unfold handleNavigation, hasSelectedValue. run_handler.
  repeat (rewrite ?Ho, ?Hm, ?Hs, ?Hsel; cbn). done.
Qed.

(** Multi mode: Backspace with the menu open and the search text empty
    drops the last element of a non-empty selection and emits nothing. *)
Lemma backspace_multi (props : Props V) (st : State V) (vs : list V) (v : V) :
  isMulti props = true → menuOpen st = true → search st = "" →
  selected st = MArray (vs ++ [v]) →
  handleNavigation props Backspace st =
    Some (tt, mkState (MArray vs) "" true (focusedOption st), []).
Proof.
  intros Hm Ho Hs Hsel.
  rewrite (backspace_multi_slice props st (vs ++ [v])); try done.
  - by rewrite sliceInit_snoc.
  - by destruct vs.
Qed.

(** Single mode: Backspace clears a truthy value, emits nothing, and leaves
    every other model content as it is. *)
Lemma backspace_single (props : Props V) (st : State V) :
  isMulti props = false → menuOpen st = true → search st = "" →
  handleNavigation props Backspace st =
    Some (tt, if modelTruthy (selected st)
              then mkState MUndefined "" true (focusedOption st)
              else st, []).
Proof.
  intros Hm Ho Hs.
  unfold handleNavigation. run_handler.
  repeat (rewrite ?Ho, ?Hs; cbn). rewrite hasSelectedValue_seen by done.
  unfold hasSelectedValue. repeat (rewrite ?Ho, ?Hm, ?Hs; cbn).
  destruct (modelTruthy (selected st)); cbn; [by rewrite ?Ho, ?Hs|done].
Qed.

(** C8: in single mode [hasSelectedValue] is [!!selected.value]; with a
    selected value that is falsy (0, the empty string) Backspace with the
    menu open and the search text empty returns in the state it started
    from: the value is not cleared. *)
Theorem backspace_keeps_falsy_value (props : Props V) (st : State V) (v : V) :
  isMulti props = false → menuOpen st = true → search st = "" →
  selected st = MScalar v → truthy v = false →
  handleNavigation props Backspace st = Some (tt, st, []).
Proof.
  intros Hm Ho Hs Hsel Hv. rewrite backspace_single by done.
  rewrite Hsel. cbn. by rewrite Hv.
Qed.

(** *** Deselecting *)

Lemma removeOption_enabled (props : Props V) (o : Option V) (st : State V) (vs : list V) :
  isMulti props = true → isDisabled props = false → selected st = MArray vs →
  removeOption props o st =
    Some (tt,
          mkState (MArray (List.filter (λ v, negb (bool_decide (v = value o))) vs))
                  (search st) (menuOpen st) (focusedOption st),
          [EmitOptionDeselected (POption o)]).
Proof.
  intros Hm Hd Hs. unfold removeOption. rewrite Hm, Hd. run_handler. by rewrite Hs.
Qed.

Lemma removeOption_disabled (props : Props V) (o : Option V) (st : State V) :
  isDisabled props = true → removeOption props o st = Some (tt, st, []).
Proof.
  intros Hd. unfold removeOption. rewrite Hd, andb_false_r. by run_handler.
Qed.

Lemma filter_ne_elem_of (v x : V) (vs : list V) :
  x ∈ List.filter (λ y, negb (bool_decide (y = v))) vs ↔ x ∈ vs ∧ x ≠ v.
Proof.
  rewrite !list_elem_of_In, filter_In, negb_true_iff, bool_decide_eq_false. done.
Qed.

Lemma filter_ne_removeFirst (v : V) (vs : list V) :
  NoDup vs → List.filter (λ x, negb (bool_decide (x = v))) vs = removeFirstOccurrence v vs.
Proof.
  induction 1 as [|x vs Hx Hnd IH]; cbn; [done|].
  case_bool_decide as Heq; cbn.
  - subst. by apply filter_ne_absent.
  - by rewrite IH.
Qed.

(** C1, as amended: in multi mode [removeOption] on an enabled control
    keeps exactly the elements that differ from [option.value], in their
    order, so every occurrence of the value goes, not the first one only;
    it then emits [optionDeselected] with the option. On a selection without
    duplicates this is the removal of the first occurrence. On a disabled
    control it changes nothing and emits nothing. *)
Theorem removeOption_removes_every_occurrence
    (props : Props V) (o : Option V) (st : State V) (vs : list V) :
  isMulti props = true → selected st = MArray vs →
  (isDisabled props = false →
     ∃ vs', removeOption props o st =
              Some (tt, mkState (MArray vs') (search st) (menuOpen st) (focusedOption st),
                    [EmitOptionDeselected (POption o)])
            ∧ vs' = List.filter (λ v, negb (bool_decide (v = value o))) vs
            ∧ (value o ∉ vs')
            ∧ (∀ v, v ≠ value o → (v ∈ vs' ↔ v ∈ vs))
            ∧ (NoDup vs → vs' = removeFirstOccurrence (value o) vs))
  ∧ (isDisabled props = true → removeOption props o st = Some (tt, st, [])).
Proof.
  intros Hm Hs. split.
  - intros Hd. eexists. split; [by apply removeOption_enabled|].
    split; [done|]. split; [|split].
    + rewrite filter_ne_elem_of. by intros [_ Hne].
    + intros v Hv. rewrite filter_ne_elem_of. split; [by intros [? _]|by intros ?].
    + apply filter_ne_removeFirst.
  - apply removeOption_disabled.
Qed.

(** C10: in multi mode on an enabled control, [removeOption] of an option
    whose value is nowhere in the selection leaves the state as it is and
    still emits [optionDeselected] with that option. *)
Theorem removeOption_absent_value_still_emits
    (props : Props V) (o : Option V) (st : State V) (vs : list V) :
  isMulti props = true → isDisabled props = false →
  selected st = MArray vs → value o ∉ vs →
  removeOption props o st = Some (tt, st, [EmitOptionDeselected (POption o)]).
Proof.
  intros Hm Hd Hs Hn. rewrite (removeOption_enabled _ _ _ vs) by done.
  rewrite filter_ne_absent by done. rewrite <- Hs. by rewrite state_eta.
Qed.

(** *** Clearing *)

Lemma selectedOptions_undefined (props : Props V) (st : State V) :
  isMulti props = false → selected st = MUndefined → selectedOptions props st = [].
Proof.
  intros Hm Hs. unfold selectedOptions. rewrite Hm, Hs.
  replace (List.find (valueIs MUndefined) (options props)) with (@None (Option V)); [done|].
  induction (options props) as [|o l IH]; cbn; done.
Qed.

(** Read before the reset, [selectedOptions.value[0]] is the first option
    that carries the selected value. *)
Lemma firstSelected_scalar (props : Props V) (st : State V) (v : V) (o : Option V) :
  isMulti props = false → selected st = MScalar v →
  List.find (λ o, bool_decide (value o = v)) (options props) = Some o →
  firstSelected props st = POption o.
Proof.
  intros Hm Hs Hfind. unfold firstSelected, selectedOptions. rewrite Hm, Hs.
  unfold valueIs. by rewrite Hfind.
Qed.

Lemma clear_multi (props : Props V) (st : State V) :
  isMulti props = true →
  clear props st =
    Some (tt, mkState (MArray []) "" false (focusedOption st), [EmitOptionDeselected PNull]).
Proof. intros Hm. unfold clear. rewrite Hm. by run_handler. Qed.

(** C3: [clear] assigns the empty value of the mode to the model
    ([undefined] in single mode, the empty array in multi mode), closes the
    menu, empties the search text, keeps the focused index and emits one
    [optionDeselected]. In multi mode the payload is [null]. In single mode
    it is [selectedOptions.value[0]], read after the assignment: when the
    host listens to [update:modelValue] the read still sees the model as it
    was, and the payload is the option that was selected; when the host
    passed [modelValue] alone the read sees [undefined], and the payload is
    [undefined] whatever option was selected. *)
Theorem clear_payload_by_binding (props : Props V) (st : State V) :
  clear props st =
    Some (tt,
          mkState (if isMulti props then MArray [] else MUndefined) "" false (focusedOption st),
          [EmitOptionDeselected
             (if isMulti props then PNull
              else if onUpdateModelValue props then firstSelected props st
              else PUndefined)]).
Proof.
  destruct (isMulti props) eqn:Hm; [by apply clear_multi|].
  unfold clear. rewrite Hm. run_handler.
  unfold readAfterAssignment. destruct (onUpdateModelValue props); cbn.
  - unfold firstSelected, selectedOptions. by rewrite Hm.
  - unfold firstSelected. by rewrite selectedOptions_undefined.
Qed.

(** *** The disabled flag *)

Lemma setOption_multi (props : Props V) (o : Option V) (st : State V) (vs : list V) :
  isMulti props = true → disabled o = false → selected st = MArray vs →
  setOption props o st =
    Some (tt, mkState (MArray (vs ++ [value o])) ""
                      (if closeOnSelect props then false else menuOpen st) (focusedOption st),
          [EmitOptionSelected o]).
Proof.
  intros Hm Hd Hs. unfold setOption. rewrite Hm, Hd. run_handler. rewrite Hs. cbn.
  by destruct (closeOnSelect props).
Qed.

Lemma setOption_single (props : Props V) (o : Option V) (st : State V) :
  isMulti props = false → disabled o = false →
  setOption props o st =
    Some (tt, mkState (MScalar (value o)) ""
                      (if closeOnSelect props then false else menuOpen st) (focusedOption st),
          [EmitOptionSelected o]).
Proof.
  intros Hm Hd. unfold setOption. rewrite Hm, Hd. run_handler. by destruct (closeOnSelect props).
Qed.

Lemma withWatcher_same_search
    (props : Props V) (h : Handler V unit) (st st' : State V) (out : list (Emit V)) :
  h st = Some (tt, st', out) → search st' = search st →
  withWatcher props h st = Some (tt, st', out).
Proof.
  intros Hh Hs. unfold withWatcher. run_handler. rewrite Hh. cbn.
  rewrite Hs, String.eqb_refl. cbn. by rewrite app_nil_r.
Qed.

(** C4: on a disabled control in multi mode, with the menu open on an
    enabled option (the flag was turned on while the menu was open) and the
    search text empty, [removeOption] changes nothing and emits nothing, but
    the other mutating paths do not read [isDisabled]: [setOption], as a
    call and as the click on the option, and the Enter key append the value
    of the focused option and emit [optionSelected], and the Backspace key
    drops the last selected value. *)
Theorem disabled_control_still_mutates
    (props : Props V) (o : Option V) (st : State V) (flat : list (Option V))
    (vs : list V) (v : V) :
  isDisabled props = true → isMulti props = true →
  menuOpen st = true → search st = "" → selected st = MArray (vs ++ [v]) →
  availableOptionsGroupedFlat props st = Some flat →
  elementAt flat (focusedOption st) = Some o → disabled o = false →
  let appended :=
    mkState (MArray ((vs ++ [v]) ++ [value o])) ""
            (if closeOnSelect props then false else true) (focusedOption st) in
  removeOption props o st = Some (tt, st, [])
  ∧ setOption props o st = Some (tt, appended, [EmitOptionSelected o])
  ∧ handleNavigation props Enter st = Some (tt, appended, [EmitOptionSelected o])
  ∧ handleNavigation props Backspace st
    = Some (tt, mkState (MArray vs) "" true (focusedOption st), [])
  ∧ perform props (SelectOption o) st = Some (tt, appended, [EmitOptionSelected o])
  ∧ perform props (DocumentKeydown Enter) st = Some (tt, appended, [EmitOptionSelected o])
  ∧ perform props (DocumentKeydown Backspace) st
    = Some (tt, mkState (MArray vs) "" true (focusedOption st), []).
Proof.
  intros Hdis Hm Ho Hs Hsel Hf Hat Hd appended.
  assert (Hset : setOption props o st = Some (tt, appended, [EmitOptionSelected o])).
  { rewrite (setOption_multi _ _ _ (vs ++ [v])) by done. by rewrite Ho. }
  assert (Henter : handleNavigation props Enter st
                   = Some (tt, appended, [EmitOptionSelected o])).
  { unfold handleNavigation.
    unfold when, read, getState, mbind, mret, handler_bind, handler_ret.
    rewrite Ho. cbn. rewrite Hf, Hat, Hset. cbn. rewrite Hm.
    unfold hasSelectedValue. rewrite Hm. by cbn. }
  assert (Hback : handleNavigation props Backspace st
                  = Some (tt, mkState (MArray vs) "" true (focusedOption st), [])).
  { by apply (backspace_multi props st vs v). }
  split; [by apply removeOption_disabled|].
  repeat split; try done; unfold perform; by apply withWatcher_same_search.
Qed.

(** *** The visible set *)

(** C5: in multi mode, with the selection an array, the visible set is
    computed, and no option of [availableOptions], of a group of
    [availableOptionsGrouped] or of [availableOptionsGroupedFlat] has its
    value in the selection. *)
Theorem visible_excludes_selected (props : Props V) (st : State V) (vs : list V) :
  isMulti props = true → selected st = MArray vs →
  ∃ avail groups flat,
    availableOptions props st = Some avail
    ∧ availableOptionsGrouped props st = Some groups
    ∧ availableOptionsGroupedFlat props st = Some flat
    ∧ (∀ o, o ∈ avail → value o ∉ vs)
    ∧ (∀ g o, g ∈ groups → o ∈ group_options g → value o ∉ vs)
    ∧ (∀ o, o ∈ flat → value o ∉ vs).
Proof.
  intros Hm Hs.
  destruct (availableOptions_total props st) as (avail & groups & flat & Ha & Hg & Hf);
    [by eauto|].
  exists avail, groups, flat. repeat split; try done.
  all: destruct (availableOptions_multi _ _ _ Hm Ha) as (vs' & Hs' & Hex);
    rewrite Hs in Hs'; inversion Hs'; subst vs'.
  - done.
  - intros g o Hin Ho. apply Hex. by eapply grouped_elem_of.
  - intros o Ho. apply Hex. by eapply flat_elem_of_available.
Qed.

(** *** Arrow keys *)

(** C6: with the menu open, ArrowDown sets the focused index to the first
    enabled option after the current index, else to the first enabled
    option of the flat list, else to -1; ArrowUp to the last enabled option
    before the current index, else to the last enabled option of the list,
    else to -1. So the new index is -1 exactly when no option is enabled,
    and is otherwise the index of an enabled option. Nothing else changes
    and nothing is emitted. *)
Theorem arrow_keys_focus_enabled_option
    (props : Props V) (st : State V) (flat : list (Option V)) :
  menuOpen st = true → availableOptionsGroupedFlat props st = Some flat →
  let cur := focusedOption st in
  (∃ r, handleNavigation props ArrowDown st =
          Some (tt, mkState (selected st) (search st) (menuOpen st) r, [])
        ∧ ((enabledAt flat r ∧ cur < r ∧ ∀ j, cur < j < r → ¬ enabledAt flat j)
           ∨ ((∀ j, cur < j → ¬ enabledAt flat j)
              ∧ enabledAt flat r ∧ ∀ j, j < r → ¬ enabledAt flat j)
           ∨ ((∀ j, ¬ enabledAt flat j) ∧ r = -1)))
  ∧ (∃ r, handleNavigation props ArrowUp st =
            Some (tt, mkState (selected st) (search st) (menuOpen st) r, [])
          ∧ ((enabledAt flat r ∧ r < cur ∧ ∀ j, r < j < cur → ¬ enabledAt flat j)
             ∨ ((∀ j, j < cur → ¬ enabledAt flat j)
                ∧ enabledAt flat r ∧ ∀ j, r < j → ¬ enabledAt flat j)
             ∨ ((∀ j, ¬ enabledAt flat j) ∧ r = -1))).
Proof.
  intros Ho Hf cur. split.
  - eexists. split; [by apply handleNavigation_ArrowDown|]. apply next_index_spec.
  - eexists. split; [by apply handleNavigation_ArrowUp|]. apply prev_index_spec.
Qed.

(** *** The focused index *)

Lemma keepsFocus_ret {A} (a : A) : keepsFocus (mret a : Handler V A).
Proof. intros st a' st' out [= <- <- <-]. done. Qed.

Lemma keepsFocus_bind {A B} (m : Handler V A) (k : A → Handler V B) :
  keepsFocus m → (∀ a, keepsFocus (k a)) → keepsFocus (m ≫= k).
Proof.
  intros Hm Hk st b st' out. unfold mbind, handler_bind.
  destruct (m st) as [[[a st1] out1]|] eqn:Hrun; [|discriminate].
  destruct (k a st1) as [[[b' st2] out2]|] eqn:Hrun'; [|discriminate].
  intros [= <- <- <-].
  destruct (Hm _ _ _ _ Hrun) as [Hf1 Hq1]. destruct (Hk _ _ _ _ _ Hrun') as [Hf2 Hq2].
  split; [congruence|tauto].
Qed.

Lemma keepsFocus_when (b : bool) (h : Handler V unit) :
  keepsFocus h → keepsFocus (when b h).
Proof. destruct b; [done|]. intros _. apply keepsFocus_ret. Qed.

Lemma keepsFocus_getState : keepsFocus (getState : Handler V (State V)).
Proof. intros st a st' out [= <- <- <-]. done. Qed.

Lemma keepsFocus_read {A} (c : State V → option A) : keepsFocus (read c).
Proof.
  intros st a st' out. unfold read. destruct (c st); [|discriminate].
  intros [= <- <- <-]. done.
Qed.

Lemma keepsFocus_emit (e : Emit V) : keepsFocus (emit e).
Proof. intros st a st' out [= <- <- <-]. done. Qed.

Lemma keepsFocus_setSelected (m : ModelValue V) : keepsFocus (setSelected m).
Proof. intros st a st' out [= <- <- <-]. done. Qed.

Lemma keepsFocus_clear_search : keepsFocus (setSearch "" : Handler V unit).
Proof. intros st a st' out [= <- <- <-]. split; [done|]. intros _. by right. Qed.

Lemma keepsFocus_close : keepsFocus (setMenuOpen false;; setSearch "" : Handler V unit).
Proof. intros st a st' out [= <- <- <-]. split; [done|]. intros _. by right. Qed.

Lemma keepsFocus_search_then_close (b : bool) :
  keepsFocus (setSearch "";; when b (setMenuOpen false) : Handler V unit).
Proof.
  intros st a st' out. destruct b; intros [= <- <- <-]; (split; [done|]); intros _; by right.
Qed.

Create HintDb focus.

#[local] Hint Resolve keepsFocus_ret keepsFocus_when keepsFocus_getState keepsFocus_read
  keepsFocus_emit keepsFocus_setSelected keepsFocus_clear_search keepsFocus_close
  keepsFocus_search_then_close : focus.

Ltac keeps_focus :=
  repeat first
    [ progress cbv beta
    | solve [eauto with focus]
    | apply keepsFocus_bind; [|intros ?]
    | apply keepsFocus_when
    | match goal with |- keepsFocus (if ?b then _ else _) => destruct b end
    | match goal with |- keepsFocus (match ?x with _ => _ end) => destruct x end ].

Lemma keepsFocus_setOption (props : Props V) (o : Option V) : keepsFocus (setOption props o).
Proof. unfold setOption. keeps_focus. Qed.

Lemma keepsFocus_removeOption (props : Props V) (o : Option V) :
  keepsFocus (removeOption props o).
Proof. unfold removeOption. keeps_focus. Qed.

Lemma keepsFocus_clear (props : Props V) : keepsFocus (clear props).
Proof. unfold clear. keeps_focus. Qed.

Lemma keepsFocus_closeMenu : keepsFocus (closeMenu : Handler V unit).
Proof. apply keepsFocus_close. Qed.

Lemma keepsFocus_handleClickOutside (outside : bool) :
  keepsFocus (handleClickOutside outside : Handler V unit).
Proof. unfold handleClickOutside. keeps_focus. Qed.

Lemma keepsFocus_handleNavigation (props : Props V) (e : KeyboardEvent) :
  String.eqb (key e) "ArrowDown" = false → String.eqb (key e) "ArrowUp" = false →
  keepsFocus (handleNavigation props e).
Proof.
  intros Hdown Hup. unfold handleNavigation. rewrite Hdown, Hup.
  pose proof keepsFocus_setOption. keeps_focus.
Qed.

(** *** Handlers return on shaped states *)

Lemma runs_ret {A} (props : Props V) (a : A) : runs props (mret a : Handler V A).
Proof. intros st Hs. by exists a, st, []. Qed.

Lemma runs_bind {A B} (props : Props V) (m : Handler V A) (k : A → Handler V B) :
  runs props m → (∀ a, runs props (k a)) → runs props (m ≫= k).
Proof.
  intros Hm Hk st Hs. unfold mbind, handler_bind.
  destruct (Hm st Hs) as (a & st1 & out1 & -> & Hs1).
  destruct (Hk a st1 Hs1) as (b & st2 & out2 & -> & Hs2).
  by exists b, st2, (out1 ++ out2).
Qed.

Lemma runs_when (props : Props V) (b : bool) (h : Handler V unit) :
  runs props h → runs props (when b h).
Proof. destruct b; [done|]. intros _. apply runs_ret. Qed.

Lemma runs_getState (props : Props V) : runs props (getState : Handler V (State V)).
Proof. intros st Hs. by exists st, st, []. Qed.

Lemma runs_emit (props : Props V) (e : Emit V) : runs props (emit e).
Proof. intros st Hs. by exists tt, st, [e]. Qed.

Lemma runs_setSearch (props : Props V) (s : string) : runs props (setSearch s).
Proof. intros st Hs. by eexists _, _, _. Qed.

Lemma runs_setMenuOpen (props : Props V) (b : bool) : runs props (setMenuOpen b).
Proof. intros st Hs. by eexists _, _, _. Qed.

Lemma runs_setFocusedOption (props : Props V) (i : Z) : runs props (setFocusedOption i).
Proof. intros st Hs. by eexists _, _, _. Qed.

Lemma runs_setSelected_array (props : Props V) (vs : list V) :
  runs props (setSelected (MArray vs)).
Proof. intros st Hs. eexists _, _, _. split; [done|]. intros _. by eexists. Qed.

Lemma runs_setSelected_single (props : Props V) (m : ModelValue V) :
  isMulti props = false → runs props (setSelected m).
Proof. intros Hm st Hs. eexists _, _, _. split; [done|]. intros Hm'. congruence. Qed.

Lemma runs_read_array (props : Props V) :
  isMulti props = true → runs props (read (λ st, asArray (selected st))).
Proof.
  intros Hm st Hs. destruct (Hs Hm) as [vs Hsel]. exists vs, st, [].
  unfold read. by rewrite Hsel.
Qed.

Lemma runs_read_flat (props : Props V) : runs props (read (availableOptionsGroupedFlat props)).
Proof.
  intros st Hs. destruct (availableOptions_total props st Hs) as (_ & _ & flat & _ & _ & Hf).
  exists flat, st, []. unfold read. by rewrite Hf.
Qed.

Lemma runs_read_hasSelectedValue (props : Props V) : runs props (read (hasSelectedValue props)).
Proof.
  intros st Hs. destruct (availableOptions_total props st Hs) as (_ & _ & flat & _ & _ & Hf).
  destruct (flat_hasSelectedValue _ _ _ Hf) as [b Hb].
  exists b, st, []. unfold read. by rewrite Hb.
Qed.

Lemma runs_read_hasSelectedValue_seen (props : Props V) (entry : State V) :
  runs props (read (λ now, hasSelectedValue props
                             (if isMulti props then now
                              else readAfterAssignment props entry now))).
Proof.
  intros st Hs. destruct (isMulti props) eqn:Hm.
  - destruct (runs_read_hasSelectedValue props st Hs) as (b & st' & out & Hrun & Hs').
    by exists b, st', out.
  - eexists _, st, []. split; [|done]. unfold read, hasSelectedValue. by rewrite Hm.
Qed.

Create HintDb runs.

#[local] Hint Resolve runs_ret runs_when runs_getState runs_emit runs_setSearch
  runs_setMenuOpen runs_setFocusedOption runs_setSelected_array runs_setSelected_single
  runs_read_array runs_read_flat runs_read_hasSelectedValue
  runs_read_hasSelectedValue_seen : runs.

Ltac runs_all :=
  repeat first
    [ progress cbv beta
    | solve [eauto with runs]
    | apply runs_bind; [|intros ?]
    | apply runs_when
    | match goal with |- runs _ (if ?b then _ else _) => destruct b eqn:? end
    | match goal with |- runs _ (match ?x with _ => _ end) => destruct x end ].

Lemma runs_openMenu (props : Props V) : runs props (openMenu props).
Proof. unfold openMenu. runs_all. Qed.

Lemma runs_closeMenu (props : Props V) : runs props (closeMenu : Handler V unit).
Proof. unfold closeMenu. runs_all. Qed.

Lemma runs_toggleMenu (props : Props V) : runs props (toggleMenu props).
Proof. pose proof runs_openMenu. pose proof runs_closeMenu. unfold toggleMenu. runs_all. Qed.

Lemma runs_setOption (props : Props V) (o : Option V) : runs props (setOption props o).
Proof. unfold setOption. runs_all. Qed.

Lemma runs_removeOption (props : Props V) (o : Option V) : runs props (removeOption props o).
Proof.
  unfold removeOption. destruct (isMulti props) eqn:Hm; cbn; [|apply runs_ret]. runs_all.
Qed.

Lemma runs_clear (props : Props V) : runs props (clear props).
Proof. unfold clear. runs_all. Qed.

Lemma runs_handleNavigation (props : Props V) (e : KeyboardEvent) :
  runs props (handleNavigation props e).
Proof. pose proof runs_setOption. unfold handleNavigation. runs_all. Qed.

Lemma runs_handleInputKeydown (props : Props V) (e : KeyboardEvent) :
  runs props (handleInputKeydown props e).
Proof.
  pose proof runs_openMenu. pose proof runs_closeMenu.
  unfold handleInputKeydown, handleInputSpace. runs_all.
Qed.

Lemma runs_handleClickOutside (props : Props V) (outside : bool) :
  runs props (handleClickOutside outside).
Proof. unfold handleClickOutside. runs_all. Qed.

Lemma runs_withWatcher (props : Props V) (h : Handler V unit) :
  runs props h → runs props (withWatcher props h).
Proof.
  intros Hh. pose proof runs_openMenu. unfold withWatcher, onSearchChange. runs_all.
Qed.

(** Every entry point returns on a shaped state, and the state it leaves is
    shaped: the model never takes the shape of the other mode. *)
Lemma runs_perform (props : Props V) (a : Action V) : runs props (perform props a).
Proof.
  unfold perform. apply runs_withWatcher.
  pose proof runs_openMenu.
  destruct a; auto using runs_handleNavigation, runs_handleClickOutside,
    runs_handleInputKeydown, runs_setSearch, runs_setOption, runs_removeOption,
    runs_clear, runs_toggleMenu, runs_when.
Qed.

(** *** The focused index is not re-resolved *)

Lemma onSearchChange_quiet (props : Props V) (st : State V) :
  quiet st → onSearchChange props st = Some (tt, st, [EmitSearch (search st)]).
Proof.
  intros Hq. unfold onSearchChange. run_handler.
  destruct Hq as [->| ->]; [|done]. by rewrite andb_false_r.
Qed.

Lemma withWatcher_focus (props : Props V) (h : Handler V unit) (st st' : State V) out :
  (∀ st1 out1, h st = Some (tt, st1, out1) →
     focusedOption st1 = focusedOption st ∧ quiet st1) →
  withWatcher props h st = Some (tt, st', out) →
  focusedOption st' = focusedOption st.
Proof.
  intros Hh. unfold withWatcher, when. unfold mbind, mret, handler_bind, handler_ret, getState.
  destruct (h st) as [[[[] st1] out1]|]; [|discriminate].
  destruct (Hh _ _ eq_refl) as [Hf Hq].
  destruct (negb (String.eqb (search st1) (search st))); cbn.
  - rewrite onSearchChange_quiet by done. intros [= <- <-]. done.
  - intros [= <- <-]. done.
Qed.

Lemma keepsFocus_from_open {A} (h : Handler V A) (st st1 : State V) a out1 :
  keepsFocus h → menuOpen st = true → h st = Some (a, st1, out1) →
  focusedOption st1 = focusedOption st ∧ quiet st1.
Proof.
  intros Hk Ho Hrun. destruct (Hk _ _ _ _ Hrun) as [Hf Hq].
  split; [done|]. apply Hq. by left.
Qed.

(** C2, as amended: while the menu is open, [focusedOption] is assigned by
    the arrow keys and by the bindings that call [openMenu], and by nothing
    else. Every other entry point (selecting, deselecting, clearing, typing
    in the search input, Enter, Space, Escape, Backspace, Tab, a click
    outside, the dropdown button) returns with the focused index it found,
    whatever the visible set has become. *)
Theorem focus_index_kept_across_recomputation
    (props : Props V) (a : Action V) (st : State V) :
  menuOpen st = true → shaped props st → assignsFocus a = false →
  ∃ st' out, perform props a st = Some (tt, st', out)
             ∧ focusedOption st' = focusedOption st.
Proof.
  intros Ho Hs Ha.
  destruct (runs_perform props a st Hs) as ([] & st' & out & Hrun & _).
  exists st', out. split; [done|].
  unfold perform in Hrun. eapply withWatcher_focus; [|exact Hrun].
  intros st1 out1 Hh. destruct a; cbn in Ha; try discriminate.
  - apply orb_false_iff in Ha as [Hdown Hup].
    by eapply keepsFocus_from_open; [apply keepsFocus_handleNavigation| |].
  - by eapply keepsFocus_from_open; [apply keepsFocus_handleClickOutside| |].
  - revert Hh. unfold handleInputKeydown, handleInputSpace. run_handler.
    destruct (String.eqb (key e) "Tab"); [|destruct (String.eqb (key e) "Space")]; cbn;
      rewrite ?Ho; cbn; intros [= <- <-]; (split; [done|]); by (right + left).
  - revert Hh. run_handler. intros [= <- <-]. split; [done|]. by left.
  - by eapply keepsFocus_from_open; [apply keepsFocus_setOption| |].
  - by eapply keepsFocus_from_open; [apply keepsFocus_removeOption| |].
  - by eapply keepsFocus_from_open; [apply keepsFocus_clear| |].
  - revert Hh. run_handler. rewrite Ho. cbn. intros [= <- <-]. split; [done|]. by right.
Qed.

(** *** The scenario of the three options *)

(** C7, as amended: in single mode without grouping, with [closeOnSelect]
    on, options [A, B, C] none of them disabled, empty search text, the menu
    open and no option focused yet (index -1), two ArrowDown presses move the
    focused index to 1, and Enter then sets the model to the value of [B],
    closes the menu and emits [optionSelected] with [B]. *)
Theorem arrow_down_twice_then_enter
    (props : Props V) (A B C : Option V) (m : ModelValue V) :
  isMulti props = false → isGrouped props = false → closeOnSelect props = true →
  displayedOptions props = None → options props = [A; B; C] →
  disabled A = false → disabled B = false → disabled C = false →
  let opened := mkState m "" true (-1) in
  (handleNavigation props ArrowDown;; handleNavigation props ArrowDown) opened
    = Some (tt, mkState m "" true 1, [])
  ∧ handleNavigation props Enter (mkState m "" true 1)
    = Some (tt, mkState (MScalar (value B)) "" false 1, [EmitOptionSelected B]).
Proof.
  intros Hm Hg Hc Hd Hopts HA HB HC opened.
  assert (Hflat : ∀ i, availableOptionsGroupedFlat props (mkState m "" true i)
                       = Some [A; B; C]).
  { intros i. rewrite flat_ungrouped by done. unfold availableOptions. cbn.
    by rewrite andb_false_r, Hm, Hd, Hopts. }
  split.
  - unfold mbind, handler_bind, opened.
    rewrite (handleNavigation_ArrowDown props (mkState m "" true (-1)) [A; B; C] eq_refl (Hflat _)).
    unfold findIndex. cbn. rewrite HA. cbn.
    rewrite (handleNavigation_ArrowDown props (mkState m "" true 0) [A; B; C] eq_refl (Hflat _)).
    unfold findIndex. cbn. by repeat (rewrite ?HA, ?HB; cbn).
  - unfold handleNavigation, setOption, hasSelectedValue. run_handler.
    rewrite !Hflat. cbn. change (Z.to_nat 1) with 1%nat. cbn.
    by repeat (rewrite ?HB, ?Hm, ?Hc; cbn).
Qed.
End Properties.

(** * Concrete runs *)

Section Runs.
Import Samples.

(** C1, the claim as stated fails: with Alice selected twice, deselecting
    Alice removes both occurrences, where removal of the first occurrence
    would keep the later one. *)
Lemma removeOption_first_occurrence_counterexample :
  removeOption users Alice aliceTwice
    = Some (tt, mkState (MArray [2]) "" true 0, [EmitOptionDeselected (POption Alice)])
  ∧ removeFirstOccurrence (value Alice) [1; 2; 1] = [2; 1]
  ∧ MArray [2] ≠ MArray (removeFirstOccurrence (value Alice) [1; 2; 1]).
Proof. repeat split. vm_compute. discriminate. Qed.

Lemma removeOption_removes_every_occurrence_witness :
  isMulti users = true ∧ selected aliceTwice = MArray [1; 2; 1]
  ∧ ∃ vs', removeOption users Alice aliceTwice
             = Some (tt, mkState (MArray vs') "" true 0, [EmitOptionDeselected (POption Alice)])
           ∧ value Alice ∉ vs'.
Proof.
  split; [reflexivity|]. split; [reflexivity|].
  destruct (removeOption_removes_every_occurrence users Alice aliceTwice [1; 2; 1]
              eq_refl eq_refl) as [Hen _].
  destruct (Hen eq_refl) as (vs' & Hrun & _ & Habsent & _).
  exists vs'. split; [exact Hrun|exact Habsent].
Defined.

Lemma removeOption_absent_value_still_emits_witness :
  isMulti users = true ∧ isDisabled users = false
  ∧ selected aliceCharlie = MArray [1; 3] ∧ (value David ∉ [1; 3])
  ∧ removeOption users David aliceCharlie
      = Some (tt, aliceCharlie, [EmitOptionDeselected (POption David)]).
Proof.
  assert (Habsent : value David ∉ [1; 3]).
  { intros Hin. apply list_elem_of_In in Hin. cbn in Hin. lia. }
  repeat (split; [first [reflexivity|exact Habsent]|]).
  apply (removeOption_absent_value_still_emits users David aliceCharlie [1; 3]);
    first [reflexivity|exact Habsent].
Defined.

(** C2, the claim as stated fails: Enter on the focused last option selects
    it; the flat list shrinks to three options and the focused index stays
    3, outside the new list. *)
Lemma focus_not_resolved_counterexample :
  focusResolved users onDavid
  ∧ perform users (DocumentKeydown Enter) onDavid
      = Some (tt, mkState (MArray [4]) "" true 3, [EmitOptionSelected David])
  ∧ availableOptionsGroupedFlat users (mkState (MArray [4]) "" true 3)
      = Some [Alice; Bob; Charlie]
  ∧ ¬ focusResolved users (mkState (MArray [4]) "" true 3).
Proof.
  split; [|repeat split].
  - exists [Alice; Bob; Charlie; David]. split; [reflexivity|]. right. cbn. lia.
  - intros (flat & Hflat & Hrange). vm_compute in Hflat. inversion Hflat; subst flat.
    cbn in Hrange. lia.
Qed.

Lemma focus_index_kept_across_recomputation_witness :
  menuOpen onDavid = true ∧ shaped users onDavid
  ∧ assignsFocus (DocumentKeydown (V:=Z) Enter) = false
  ∧ ∃ st' out, perform users (DocumentKeydown Enter) onDavid = Some (tt, st', out)
               ∧ focusedOption st' = focusedOption onDavid.
Proof.
  assert (Hshaped : shaped users onDavid) by (intros _; exists []; reflexivity).
  split; [reflexivity|]. split; [exact Hshaped|]. split; [reflexivity|].
  apply (focus_index_kept_across_recomputation users (DocumentKeydown Enter) onDavid);
    first [reflexivity|exact Hshaped].
Defined.

Lemma clear_payload_by_binding_witness :
  isMulti booksLocal = false
  ∧ onUpdateModelValue booksLocal = false
  ∧ firstSelected booksLocal pickedA = POption A
  ∧ clear booksLocal pickedA
      = Some (tt, mkState MUndefined "" false 0, [EmitOptionDeselected PUndefined]).
Proof.
  split; [reflexivity|]. split; [reflexivity|]. split; [reflexivity|].
  exact (clear_payload_by_binding booksLocal pickedA).
Defined.

(** Under [v-model] the same call emits the option that was selected. *)
Example clear_bound_emits_selected_option :
  clear books pickedA
    = Some (tt, mkState MUndefined "" false 0, [EmitOptionDeselected (POption A)]).
Proof. reflexivity. Qed.

Lemma disabled_control_still_mutates_witness :
  isDisabled usersDisabled = true ∧ isMulti usersDisabled = true
  ∧ menuOpen aliceCharlie = true ∧ search aliceCharlie = ""
  ∧ selected aliceCharlie = MArray ([1] ++ [3])
  ∧ availableOptionsGroupedFlat usersDisabled aliceCharlie = Some [Bob; David]
  ∧ elementAt [Bob; David] (focusedOption aliceCharlie) = Some Bob
  ∧ disabled Bob = false
  ∧ (removeOption usersDisabled Bob aliceCharlie = Some (tt, aliceCharlie, [])
     ∧ setOption usersDisabled Bob aliceCharlie
       = Some (tt, mkState (MArray [1; 3; 2]) "" true 0, [EmitOptionSelected Bob])
     ∧ handleNavigation usersDisabled Enter aliceCharlie
       = Some (tt, mkState (MArray [1; 3; 2]) "" true 0, [EmitOptionSelected Bob])
     ∧ handleNavigation usersDisabled Backspace aliceCharlie
       = Some (tt, mkState (MArray [1]) "" true 0, [])
     ∧ perform usersDisabled (SelectOption Bob) aliceCharlie
       = Some (tt, mkState (MArray [1; 3; 2]) "" true 0, [EmitOptionSelected Bob])
     ∧ perform usersDisabled (DocumentKeydown Enter) aliceCharlie
       = Some (tt, mkState (MArray [1; 3; 2]) "" true 0, [EmitOptionSelected Bob])
     ∧ perform usersDisabled (DocumentKeydown Backspace) aliceCharlie
       = Some (tt, mkState (MArray [1]) "" true 0, [])).
Proof.
  split; [reflexivity|]. split; [reflexivity|]. split; [reflexivity|].
  split; [reflexivity|]. split; [reflexivity|]. split; [reflexivity|].
  split; [reflexivity|]. split; [reflexivity|].
  exact (disabled_control_still_mutates usersDisabled Bob aliceCharlie [Bob; David] [1] 3
           eq_refl eq_refl eq_refl eq_refl eq_refl eq_refl eq_refl eq_refl).
Defined.

Lemma visible_excludes_selected_witness :
  isMulti users = true ∧ selected aliceCharlie = MArray [1; 3]
  ∧ ∃ avail groups flat,
      availableOptions users aliceCharlie = Some avail
      ∧ availableOptionsGrouped users aliceCharlie = Some groups
      ∧ availableOptionsGroupedFlat users aliceCharlie = Some flat
      ∧ (∀ o, o ∈ avail → value o ∉ [1; 3])
      ∧ (∀ g o, g ∈ groups → o ∈ group_options g → value o ∉ [1; 3])
      ∧ (∀ o, o ∈ flat → value o ∉ [1; 3]).
Proof.
  split; [reflexivity|]. split; [reflexivity|].
  apply (visible_excludes_selected users aliceCharlie [1; 3]); reflexivity.
Defined.

Lemma arrow_keys_focus_enabled_option_witness :
  menuOpen pickedA = true ∧ availableOptionsGroupedFlat books pickedA = Some [A; B; C]
  ∧ ∃ r, handleNavigation books ArrowDown pickedA
           = Some (tt, mkState (selected pickedA) (search pickedA) (menuOpen pickedA) r, []).
Proof.
  split; [reflexivity|]. split; [reflexivity|].
  destruct (arrow_keys_focus_enabled_option books pickedA [A; B; C] eq_refl eq_refl)
    as [(r & Hrun & _) _].
  exists r. exact Hrun.
Defined.

(** C7, the claim as stated fails: with the default flags the menu opens
    with the first option focused, two ArrowDown presses reach index 2, and
    Enter selects [C]. *)
Lemma autofocus_arrow_down_counterexample :
  openMenu books mounted = Some (tt, mkState MNull "" true 0, [])
  ∧ (handleNavigation books ArrowDown;; handleNavigation books ArrowDown)
      (mkState MNull "" true 0)
      = Some (tt, mkState MNull "" true 2, [])
  ∧ handleNavigation books Enter (mkState MNull "" true 2)
      = Some (tt, mkState (MScalar "c") "" false 2, [EmitOptionSelected C]).
Proof. repeat split. Qed.

Lemma arrow_down_twice_then_enter_witness :
  openMenu booksNoAutofocus mounted = Some (tt, unfocused, [])
  ∧ (handleNavigation booksNoAutofocus ArrowDown;; handleNavigation booksNoAutofocus ArrowDown)
      unfocused
      = Some (tt, mkState MNull "" true 1, [])
  ∧ handleNavigation booksNoAutofocus Enter (mkState MNull "" true 1)
      = Some (tt, mkState (MScalar "b") "" false 1, [EmitOptionSelected B]).
Proof.
  split; [reflexivity|].
  apply (arrow_down_twice_then_enter booksNoAutofocus A B C MNull); reflexivity.
Defined.

(** Multi mode: Backspace drops the last element and emits nothing. *)
Example backspace_drops_last :
  handleNavigation users Backspace aliceCharlie = Some (tt, mkState (MArray [1]) "" true 0, []).
Proof. reflexivity. Qed.

Lemma backspace_keeps_falsy_value_witness :
  isMulti owner = false ∧ menuOpen nobodyOwns = true ∧ search nobodyOwns = ""
  ∧ selected nobodyOwns = MScalar 0 ∧ truthy 0 = false
  ∧ selectedOptions owner nobodyOwns = [Some Nobody]
  ∧ handleNavigation owner Backspace nobodyOwns = Some (tt, nobodyOwns, []).
Proof.
  repeat (split; [reflexivity|]).
  apply (backspace_keeps_falsy_value owner nobodyOwns 0); reflexivity.
Defined.

Lemma enter_without_focus_witness :
  menuOpen unfocused = true
  ∧ availableOptionsGroupedFlat books unfocused = Some [A; B; C]
  ∧ focusedOption unfocused = -1
  ∧ (handleNavigation books Enter unfocused = Some (tt, unfocused, [])
     ∧ withWatcher books (handleNavigation books Enter) unfocused = Some (tt, unfocused, [])).
Proof.
  split; [reflexivity|]. split; [reflexivity|]. split; [reflexivity|].
  apply (enter_without_focus books Enter unfocused [A; B; C]);
    first [reflexivity|left; reflexivity].
Defined.
End Runs.

(** * Further properties *)

Section Coverage.
Context {V : Type} `{JsValue V}.

Lemma filter_sublist {A} (f : A → bool) (l : list A) : sublist (List.filter f l) l.
Proof.
  induction l as [|x l IH]; cbn; [constructor|].
  destruct (f x); by constructor.
Qed.

Lemma filter_elem_of {A} (f : A → bool) (l : list A) (x : A) :
  x ∈ List.filter f l ↔ x ∈ l ∧ f x = true.
Proof. by rewrite !list_elem_of_In, filter_In. Qed.

(** X1: [availableOptions] is a sublist of the displayed options (of
    [displayedOptions] when given, else of [options]), and an option is in it
    exactly when it is one of them, passes [filterBy] on its label when the
    control is searchable and the search text is not empty, and, in multi
    mode, has a value outside the selection. *)
Theorem availableOptions_filters (props : Props V) (st : State V) (avail : list (Option V)) :
  availableOptions props st = Some avail →
  sublist avail (baseOptions props)
  ∧ ∀ o, o ∈ avail ↔
      o ∈ baseOptions props
      ∧ (searching props st = true → filterBy props o (optionLabel props o) (search st) = true)
      ∧ (isMulti props = true → ∃ vs, selected st = MArray vs ∧ value o ∉ vs).
Proof.
  unfold availableOptions, filterMultiSelectedValues, baseOptions, searching, optionLabel.
  set (base := default (options props) (displayedOptions props)).
  destruct (isSearchable props && negb (String.eqb (search st) "")) eqn:Hs;
    destruct (isMulti props) eqn:Hm; cbn.
  - destruct (selected st) as [| | v|vs]; cbn; try discriminate. intros [= <-]. split.
    + etrans; apply filter_sublist.
    + intros o. rewrite !filter_elem_of, negb_true_iff. split.
      * intros [[Hb Hf] Hi]. repeat split; try done. intros _. exists vs. split; [done|].
        rewrite <- includes_elem_of. by rewrite Hi.
      * intros (Hb & Hf & Hsel). destruct (Hsel eq_refl) as (vs' & [= <-] & Hn).
        repeat split; auto. apply not_true_is_false. by rewrite includes_elem_of.
  - intros [= <-]. split; [apply filter_sublist|].
    intros o. rewrite filter_elem_of. split.
    + intros [Hb Hf]. by repeat split.
    + intros (Hb & Hf & _). auto.
  - destruct (selected st) as [| | v|vs]; cbn; try discriminate. intros [= <-]. split.
    + apply filter_sublist.
    + intros o. rewrite filter_elem_of, negb_true_iff. split.
      * intros [Hb Hi]. repeat split; try done. intros _. exists vs. split; [done|].
        rewrite <- includes_elem_of. by rewrite Hi.
      * intros (Hb & _ & Hsel). destruct (Hsel eq_refl) as (vs' & [= <-] & Hn).
        split; [done|]. apply not_true_is_false. by rewrite includes_elem_of.
  - intros [= <-]. split; [done|]. intros o. split; [by intros ?|by intros [? _]].
Qed.

(** ** Grouping *)

Lemma groupAdd_keys {A} (k : string) (x : A) (g : list (string * list A)) :
  map fst (groupAdd k x g) = if bool_decide (k ∈ map fst g) then map fst g else map fst g ++ [k].
Proof.
  induction g as [|[k0 xs0] g IH]; cbn; [done|].
  destruct (String.eqb_spec k k0) as [->|Hne]; cbn.
  - rewrite bool_decide_eq_true_2; [done|left].
  - rewrite IH. case_bool_decide as Hin.
    + rewrite bool_decide_eq_true_2; [done|by right].
    + rewrite bool_decide_eq_false_2; [done|].
      intros Hin'. apply elem_of_cons in Hin' as [?|?]; done.
Qed.

Lemma groupAdd_property {A} (k k' : string) (x : A) (g : list (string * list A)) :
  property k' (groupAdd k x g) =
    if String.eqb k' k then Some (default [] (property k' g) ++ [x]) else property k' g.
Proof.
  induction g as [|[k0 xs0] g IH]; cbn.
  - by destruct (String.eqb k' k).
  - destruct (String.eqb_spec k k0) as [->|Hne]; cbn.
    + by destruct (String.eqb k' k0).
    + destruct (String.eqb_spec k' k0) as [->|Hne'].
      * destruct (String.eqb_spec k0 k); [congruence|done].
      * apply IH.
Qed.

Lemma groupBy_snoc {A} (keyOf : A → string) (l : list A) (x : A) :
  groupBy keyOf (l ++ [x]) = groupAdd (keyOf x) x (groupBy keyOf l).
Proof. unfold groupBy. by rewrite fold_left_app. Qed.

(** The group of a key holds the elements of that key, in their order. *)
Lemma groupBy_property {A} (keyOf : A → string) (l : list A) (k : string) :
  property k (groupBy keyOf l) =
    match List.filter (λ x, String.eqb (keyOf x) k) l with
    | [] => None
    | xs => Some xs
    end.
Proof.
  induction l as [|x l IH] using rev_ind; [done|].
  rewrite groupBy_snoc, groupAdd_property, IH, List.filter_app. cbn.
  rewrite (String.eqb_sym (keyOf x) k).
  destruct (String.eqb k (keyOf x)).
  - destruct (List.filter _ l); done.
  - by rewrite app_nil_r.
Qed.

Lemma groupBy_keys_NoDup {A} (keyOf : A → string) (l : list A) :
  NoDup (map fst (groupBy keyOf l)).
Proof.
  induction l as [|x l IH] using rev_ind; [constructor|].
  rewrite groupBy_snoc, groupAdd_keys. case_bool_decide as Hin; [done|].
  apply NoDup_app. repeat split; try done.
  - intros k Hk Hk'. apply list_elem_of_singleton in Hk'. by subst.
  - apply NoDup_singleton.
Qed.

Lemma groupBy_keys_elem_of {A} (keyOf : A → string) (l : list A) (k : string) :
  k ∈ map fst (groupBy keyOf l) ↔ k ∈ map keyOf l.
Proof.
  induction l as [|x l IH] using rev_ind; [done|].
  rewrite groupBy_snoc, groupAdd_keys, map_app, elem_of_app. cbn.
  case_bool_decide as Hin.
  - rewrite IH. split; [by left|]. intros [?|Hx]; [done|].
    apply list_elem_of_singleton in Hx. subst. by apply IH.
  - by rewrite elem_of_app, IH.
Qed.

Lemma filter_filter_ne (K : list string) (k : string) (l : list string) :
  List.filter (λ k', negb (bool_decide (k' ∈ K ++ [k]))) l =
  List.filter (λ k', negb (bool_decide (k' ∈ K))) (List.filter (λ k', negb (String.eqb k' k)) l).
Proof.
  induction l as [|a l IH]; cbn; [done|].
  destruct (String.eqb_spec a k) as [->|Hne]; cbn.
  - rewrite bool_decide_eq_true_2; [done|]. apply elem_of_app. right. left.
  - rewrite <- IH. f_equal.
    destruct (decide (a ∈ K)) as [Hin|Hin].
    + rewrite !bool_decide_eq_true_2; [done|done|]. apply elem_of_app. by left.
    + rewrite !bool_decide_eq_false_2; [done|done|].
      intros Hin'. apply elem_of_app in Hin' as [?|Hk]; [done|].
      apply list_elem_of_singleton in Hk. done.
Qed.

Lemma filter_absorb (K : list string) (k : string) (l : list string) :
  k ∈ K →
  List.filter (λ k', negb (bool_decide (k' ∈ K))) (List.filter (λ k', negb (String.eqb k' k)) l) =
  List.filter (λ k', negb (bool_decide (k' ∈ K))) l.
Proof.
  intros Hk. induction l as [|a l IH]; cbn; [done|].
  destruct (String.eqb_spec a k) as [->|Hne]; cbn.
  - rewrite bool_decide_eq_true_2 by done. done.
  - by rewrite IH.
Qed.

Lemma fold_groupAdd_keys {A} (keyOf : A → string) (l : list A) (g : list (string * list A)) :
  map fst (fold_left (λ g x, groupAdd (keyOf x) x g) l g) =
  map fst g ++ List.filter (λ k, negb (bool_decide (k ∈ map fst g)))
                           (firstOccurrences (map keyOf l)).
Proof.
  revert g. induction l as [|x l IH]; intros g; cbn; [by rewrite app_nil_r|].
  rewrite IH, groupAdd_keys. case_bool_decide as Hin; cbn.
  - by rewrite filter_absorb.
  - by rewrite <- app_assoc, filter_filter_ne.
Qed.

(** The keys of [groupBy], in creation order, are the keys of the elements
    in order of first occurrence. *)
Lemma groupBy_keys {A} (keyOf : A → string) (l : list A) :
  map fst (groupBy keyOf l) = firstOccurrences (map keyOf l).
Proof.
  unfold groupBy. rewrite fold_groupAdd_keys. cbn.
  induction (firstOccurrences (map keyOf l)) as [|k ks IH]; cbn; [done|]. by rewrite IH.
Qed.

Lemma insertIndex_Permutation (e : N * string) (l : list (N * string)) :
  insertIndex e l ≡ₚ e :: l.
Proof.
  induction l as [|e' l IH]; cbn; [done|].
  destruct (fst e <? fst e')%N; [done|]. rewrite IH. apply Permutation_swap.
Qed.

Lemma sortIndex_Permutation (l : list (N * string)) : foldr insertIndex [] l ≡ₚ l.
Proof.
  induction l as [|e l IH]; cbn; [done|]. by rewrite insertIndex_Permutation, IH.
Qed.

Lemma objectKeys_Permutation {A} (g : list (string * list A)) : objectKeys g ≡ₚ map fst g.
Proof.
  unfold objectKeys. rewrite sortIndex_Permutation.
  induction (map fst g) as [|k ks IH]; cbn; [done|].
  destruct (arrayIndex k); cbn.
  - by rewrite IH.
  - by rewrite <- Permutation_middle, IH.
Qed.

Lemma objectKeys_names {A} (g : list (string * list A)) :
  (∀ k, k ∈ map fst g → arrayIndex k = None) → objectKeys g = map fst g.
Proof.
  unfold objectKeys. intros Hnone.
  assert (Hboth : omap (λ k, match arrayIndex k with Some n => Some (n, k) | None => None end)
                       (map fst g) = []
                  ∧ List.filter (λ k, match arrayIndex k with Some _ => false | None => true end)
                                (map fst g) = map fst g).
  { induction (map fst g) as [|k ks IH]; cbn; [done|].
    rewrite (Hnone k) by left. destruct IH as [-> ->]; [|done].
    intros k' Hk'. apply Hnone. by right. }
  destruct Hboth as [-> ->]. done.
Qed.

Lemma flat_concat (groups : list (OptionGroup V)) (acc : list (Option V)) :
  fold_left (λ flat grouped, flat ++ group_options grouped) groups acc
  = acc ++ concat (map group_options groups).
Proof.
  revert acc. induction groups as [|g groups IH]; intros acc; cbn; [by rewrite app_nil_r|].
  by rewrite IH, app_assoc.
Qed.

Lemma concat_filter_cons {A} (keyOf : A → string) (ks : list string) (x : A) (l : list A) :
  NoDup ks → keyOf x ∈ ks →
  concat (map (λ k, List.filter (λ y, String.eqb (keyOf y) k) (x :: l)) ks)
  ≡ₚ x :: concat (map (λ k, List.filter (λ y, String.eqb (keyOf y) k) l) ks).
Proof.
  induction 1 as [|k ks Hk Hnd IH]; intros Hx; [inversion Hx|].
  cbn [map concat].
  destruct (String.eqb_spec (keyOf x) k) as [Heq|Hne].
  - assert (Hrest : map (λ k, List.filter (λ y, String.eqb (keyOf y) k) (x :: l)) ks
                     = map (λ k, List.filter (λ y, String.eqb (keyOf y) k) l) ks).
    { apply map_ext_in. intros k0 Hk0. cbn.
      destruct (String.eqb_spec (keyOf x) k0) as [Heq0|]; [|done].
      exfalso. apply Hk. rewrite <- Heq, Heq0. by apply list_elem_of_In. }
    rewrite Hrest. cbn [List.filter]. rewrite Heq, String.eqb_refl. done.
  - apply elem_of_cons in Hx as [?|Hx]; [done|].
    rewrite (IH Hx). cbn [List.filter].
    destruct (String.eqb_spec (keyOf x) k); [done|]. by rewrite Permutation_middle.
Qed.

Lemma concat_filter_keys {A} (keyOf : A → string) (ks : list string) (l : list A) :
  NoDup ks → (∀ x, x ∈ l → keyOf x ∈ ks) →
  concat (map (λ k, List.filter (λ x, String.eqb (keyOf x) k) l) ks) ≡ₚ l.
Proof.
  intros Hnd. induction l as [|x l IH]; intros Hcover.
  - cbn. clear. induction ks; cbn; done.
  - rewrite concat_filter_cons; [|done|apply Hcover; left].
    rewrite IH; [done|]. intros y Hy. apply Hcover. by right.
Qed.

Lemma isGroupingEnabled_Some (props : Props V) (st : State V) (avail : list (Option V)) :
  availableOptions props st = Some avail →
  isGroupingEnabled props st = Some (isGrouped props && existsb hasGroupName avail).
Proof. intros Ha. unfold isGroupingEnabled. rewrite Ha. by destruct (isGrouped props). Qed.

Lemma grouped_when_enabled (props : Props V) (st : State V) (avail : list (Option V)) :
  availableOptions props st = Some avail →
  isGrouped props = true → existsb hasGroupName avail = true →
  availableOptionsGrouped props st =
    Some (map (λ name, mkGroup name (List.filter (λ o, String.eqb (groupKey o) name) avail))
              (objectKeys (groupBy groupKey avail))).
Proof.
  intros Ha Hg He. unfold availableOptionsGrouped.
  rewrite (isGroupingEnabled_Some _ _ _ Ha), Ha, Hg, He. cbn. f_equal.
  apply map_ext. intros name. f_equal. rewrite groupBy_property.
  by destruct (List.filter _ avail).
Qed.

Lemma grouped_when_not_enabled (props : Props V) (st : State V) (avail : list (Option V)) :
  availableOptions props st = Some avail →
  isGrouped props && existsb hasGroupName avail = false →
  availableOptionsGrouped props st = Some [mkGroup "default" avail].
Proof.
  intros Ha Hg. unfold availableOptionsGrouped.
  by rewrite (isGroupingEnabled_Some _ _ _ Ha), Ha, Hg.
Qed.

(** X2: the flat list holds the available options, each as often as
    [availableOptions] does: grouping reorders, it neither drops nor repeats
    an option. *)
Theorem flat_is_permutation_of_available
    (props : Props V) (st : State V) (avail flat : list (Option V)) :
  availableOptions props st = Some avail →
  availableOptionsGroupedFlat props st = Some flat →
  flat ≡ₚ avail.
Proof.
  intros Ha. unfold availableOptionsGroupedFlat.
  destruct (isGrouped props && existsb hasGroupName avail) eqn:Hen.
  - apply andb_true_iff in Hen as [Hg He].
    rewrite (grouped_when_enabled _ _ _ Ha Hg He). intros [= <-].
    rewrite flat_concat, map_map. cbn.
    apply concat_filter_keys.
    + rewrite objectKeys_Permutation. apply groupBy_keys_NoDup.
    + intros o Ho. rewrite objectKeys_Permutation, groupBy_keys_elem_of.
      by apply list_elem_of_fmap_2.
  - rewrite (grouped_when_not_enabled _ _ _ Ha Hen). by intros [= <-].
Qed.

(** X3: when grouping is on and some available option has a group name,
    the groups have pairwise distinct names, the names are the keys
    [groupName || "default"] of the available options, every group is not
    empty and holds the available options of its key in their order; and
    when no key is an array index, the groups come in order of first
    occurrence of their key. *)
Theorem groups_partition_by_name
    (props : Props V) (st : State V) (avail : list (Option V)) (groups : list (OptionGroup V)) :
  availableOptions props st = Some avail →
  availableOptionsGrouped props st = Some groups →
  isGrouped props = true → existsb hasGroupName avail = true →
  NoDup (map group_name groups)
  ∧ (∀ name, name ∈ map group_name groups ↔ ∃ o, o ∈ avail ∧ groupKey o = name)
  ∧ (∀ g, g ∈ groups →
       group_options g ≠ []
       ∧ group_options g = List.filter (λ o, String.eqb (groupKey o) (group_name g)) avail)
  ∧ ((∀ o, o ∈ avail → arrayIndex (groupKey o) = None) →
       map group_name groups = firstOccurrences (map groupKey avail)).
Proof.
  intros Ha Hgr Hg He. rewrite (grouped_when_enabled _ _ _ Ha Hg He) in Hgr.
  injection Hgr as <-. rewrite map_map. cbn. rewrite map_id.
  assert (Hkeys : ∀ name, name ∈ objectKeys (groupBy groupKey avail)
                          ↔ ∃ o, o ∈ avail ∧ groupKey o = name).
  { intros name. rewrite objectKeys_Permutation, groupBy_keys_elem_of, list_elem_of_fmap.
    split; intros (o & Ho1 & Ho2); exists o; by split. }
  split; [|split; [|split]].
  - rewrite objectKeys_Permutation. apply groupBy_keys_NoDup.
  - done.
  - intros g Hin. apply list_elem_of_fmap in Hin as (name & -> & Hname). cbn.
    split; [|done]. apply Hkeys in Hname as (o & Ho & Hk).
    intros Hnil. assert (Hin : o ∈ List.filter (λ o, String.eqb (groupKey o) name) avail).
    { apply filter_elem_of. split; [done|]. by apply String.eqb_eq. }
    rewrite Hnil in Hin. inversion Hin.
  - intros Hnone. rewrite objectKeys_names; [apply groupBy_keys|].
    intros k Hk. rewrite groupBy_keys_elem_of in Hk.
    apply list_elem_of_fmap in Hk as (o & -> & Ho). auto.
Qed.

(** X4: when [isGrouped] is off, or no available option has a non-empty
    group name, there is the one group "default" with all available options,
    and the flat list is [availableOptions]. *)
Theorem ungrouped_single_default_group
    (props : Props V) (st : State V) (avail : list (Option V)) :
  availableOptions props st = Some avail →
  isGrouped props = false ∨ (∀ o, o ∈ avail → groupName o = None ∨ groupName o = Some "") →
  availableOptionsGrouped props st = Some [mkGroup "default" avail]
  ∧ availableOptionsGroupedFlat props st = Some avail.
Proof.
  intros Ha Hcase.
  assert (Hen : isGrouped props && existsb hasGroupName avail = false).
  { destruct Hcase as [->|Hnone]; [done|]. apply andb_false_iff. right.
    apply not_true_is_false. intros He. apply existsb_exists in He as (o & Ho & Hn).
    apply list_elem_of_In in Ho. unfold hasGroupName in Hn.
    destruct (Hnone o Ho) as [Hg|Hg]; rewrite Hg in Hn; done. }
  pose proof (grouped_when_not_enabled _ _ _ Ha Hen) as Hg.
  split; [done|]. unfold availableOptionsGroupedFlat. by rewrite Hg.
Qed.

(** ** The selected options *)

Lemma find_first {A} (f : A → bool) (l : list A) (x : A) :
  List.find f l = Some x →
  ∃ k : nat, l !! k = Some x ∧ f x = true ∧ ∀ j y, (j < k)%nat → l !! j = Some y → f y = false.
Proof.
  induction l as [|a l IH]; cbn; [discriminate|].
  destruct (f a) eqn:Hf.
  - intros [= ->]. exists 0%nat. repeat split; try done. intros; lia.
  - intros Hx. destruct (IH Hx) as (k & Hk & Hfx & Hfirst). exists (S k).
    repeat split; try done. intros [|j] y Hj Hy; cbn in Hy.
    + by inversion Hy; subst.
    + apply (Hfirst j); [lia|done].
Qed.

(** X5: in single mode [selectedOptions] is empty when no option carries
    the selected value, and otherwise holds the first option of [options]
    that carries it; in multi mode it has one entry per selected value, the
    first option of [options] with that value (no earlier option has it), or
    [undefined] where no option has it. *)
Theorem selectedOptions_lookup (props : Props V) (st : State V) :
  (isMulti props = false →
     selectedOptions props st = []
     ∧ (∀ v, selected st = MScalar v → ∀ o, o ∈ options props → value o ≠ v)
     ∨ ∃ o v (k : nat),
         selectedOptions props st = [Some o] ∧ selected st = MScalar v
         ∧ options props !! k = Some o ∧ value o = v
         ∧ ∀ j o', (j < k)%nat → options props !! j = Some o' → value o' ≠ v)
  ∧ (∀ vs, isMulti props = true → selected st = MArray vs →
       length (selectedOptions props st) = length vs
       ∧ ∀ (i : nat) v, vs !! i = Some v →
           (∃ o (k : nat),
               selectedOptions props st !! i = Some (Some o)
               ∧ options props !! k = Some o ∧ value o = v
               ∧ ∀ j o', (j < k)%nat → options props !! j = Some o' → value o' ≠ v)
           ∨ (selectedOptions props st !! i = Some None
              ∧ ∀ o, o ∈ options props → value o ≠ v)).
Proof.
  split.
  - intros Hm. unfold selectedOptions. rewrite Hm.
    destruct (List.find (valueIs (selected st)) (options props)) as [o|] eqn:Hfind.
    + right. apply find_first in Hfind as (k & Hk & Hv & Hfirst).
      unfold valueIs in Hv, Hfirst.
      destruct (selected st) as [| | v|vs]; try discriminate.
      exists o, v, k. apply bool_decide_eq_true in Hv. repeat split; try done.
      intros j o' Hj Ho'. specialize (Hfirst j o' Hj Ho'). by apply bool_decide_eq_false in Hfirst.
    + left. split; [by destruct (selected st)|]. intros v Hs o Ho.
      rewrite Hs in Hfind. apply list_elem_of_In in Ho.
      pose proof (find_none _ _ Hfind o Ho) as Hn. cbn in Hn.
      by apply bool_decide_eq_false in Hn.
  - intros vs Hm Hs. unfold selectedOptions. rewrite Hm, Hs. split; [by rewrite length_map|].
    intros i v Hi. rewrite list_lookup_fmap, Hi. cbn.
    destruct (List.find _ (options props)) as [o|] eqn:Hfind.
    + left. apply find_first in Hfind as (k & Hk & Hv & Hfirst).
      exists o, k. apply bool_decide_eq_true in Hv. repeat split; try done.
      intros j o' Hj Ho'. specialize (Hfirst j o' Hj Ho'). by apply bool_decide_eq_false in Hfirst.
    + right. split; [done|]. intros o Ho. apply list_elem_of_In in Ho.
      pose proof (find_none _ _ Hfind o Ho) as Hn. cbn in Hn.
      by apply bool_decide_eq_false in Hn.
Qed.

(** ** Opening and closing *)

(** X6: [openMenu] opens the menu, keeps selection and search text and
    emits nothing; with [shouldAutofocusOption] it sets the focused index to
    the first enabled option of [props.options] (the options as passed, not
    the visible list), or to -1 when all are disabled, and without it leaves
    the index alone. *)
Theorem openMenu_seeds_focus_from_options (props : Props V) (st : State V) :
  ∃ f, openMenu props st = Some (tt, mkState (selected st) (search st) true f, [])
       ∧ (shouldAutofocusOption props = false → f = focusedOption st)
       ∧ (shouldAutofocusOption props = true →
            (f = -1 ∧ ∀ o, o ∈ options props → disabled o = true)
            ∨ (enabledAt (options props) f ∧ ∀ j, j < f → ¬ enabledAt (options props) j)).
Proof.
  unfold openMenu. run_handler. destruct (shouldAutofocusOption props); cbn.
  - eexists. split; [done|]. split; [done|]. intros _.
    destruct (findIndex_spec (λ (o : Option V) (_ : Z), negb (disabled o)) (options props))
      as [[Hf Hall]|(x & Hx & Hpx & Hfirst)].
    + left. split; [done|]. intros o Ho. apply list_elem_of_lookup in Ho as [k Hk].
      rewrite <- elementAt_lookup in Hk. specialize (Hall _ _ Hk). by apply negb_false_iff.
    + right. split; [exists x; split; [done|by apply negb_true_iff]|].
      intros j Hj (o & Ho & Hd). specialize (Hfirst _ _ Hj Ho). by rewrite Hd in Hfirst.
  - eexists. split; [done|]. split; [done|]. done.
Qed.

Lemma withWatcher_after_close (props : Props V) (h : Handler V unit) (st : State V) :
  h st = Some (tt, mkState (selected st) "" false (focusedOption st), []) →
  withWatcher props h st =
    Some (tt, mkState (selected st) "" false (focusedOption st),
          if String.eqb (search st) "" then [] else [EmitSearch ""]).
Proof.
  intros Hh. unfold withWatcher, onSearchChange. run_handler. rewrite Hh. cbn.
  by destruct (search st).
Qed.

(** X7: Tab in the input, a click outside, the dropdown button on an open
    menu and Escape on an open menu all end in the state [closeMenu] leaves:
    menu closed, search text empty, selection and focused index kept.
    [closeMenu] itself emits nothing; with the watcher that follows each of
    these events, [search] is emitted with the empty text exactly when the
    search text was not empty, and nothing else is emitted. *)
Theorem closing_paths_agree (props : Props V) (st : State V) :
  let closed := mkState (selected st) "" false (focusedOption st) in
  let report := if String.eqb (search st) "" then [] else [EmitSearch ""] in
  closeMenu st = Some (tt, closed, [])
  ∧ perform props (InputKeydown Tab) st = Some (tt, closed, report)
  ∧ perform props (DocumentClick true) st = Some (tt, closed, report)
  ∧ (menuOpen st = true → perform props ClickDropdown st = Some (tt, closed, report))
  ∧ (menuOpen st = true → shaped props st →
       perform props (DocumentKeydown Escape) st = Some (tt, closed, report)).
Proof.
  cbn zeta. unfold perform. split; [done|].
  split; [by apply withWatcher_after_close|]. split; [by apply withWatcher_after_close|].
  split.
  - intros Ho. apply withWatcher_after_close. unfold toggleMenu. run_handler. by rewrite Ho.
  - intros Ho Hs. apply withWatcher_after_close.
    destruct (availableOptions_total props st Hs) as (_ & _ & flat & _ & _ & Hf).
    destruct (flat_hasSelectedValue _ _ _ Hf) as [b Hb].
    unfold handleNavigation. run_handler. rewrite Ho. cbn.
    rewrite hasSelectedValue_seen by done. by rewrite Hb.
Qed.

(** ** Keys *)

(** X8: the keyboard handler leaves the state as it is and emits nothing
    when the menu is closed, and when the key is none of ArrowDown, ArrowUp,
    Enter, Escape, Backspace and the code is not Space. *)
Theorem other_keys_do_nothing (props : Props V) (e : KeyboardEvent) (st : State V) :
  shaped props st →
  menuOpen st = false
  ∨ (key e ≠ "ArrowDown" ∧ key e ≠ "ArrowUp" ∧ key e ≠ "Enter" ∧ key e ≠ "Escape"
     ∧ key e ≠ "Backspace" ∧ code e ≠ "Space") →
  handleNavigation props e st = Some (tt, st, []).
Proof.
  intros Hs [Hc|(Hd & Hu & He & Hx & Hb & Hsp)]; [by apply handleNavigation_closed|].
  destruct (menuOpen st) eqn:Ho; [|by apply handleNavigation_closed].
  destruct (availableOptions_total props st Hs) as (_ & _ & flat & _ & _ & Hf).
  destruct (flat_hasSelectedValue _ _ _ Hf) as [b Hb'].
  apply String.eqb_neq in Hd, Hu, He, Hx, Hb, Hsp.
  unfold handleNavigation. run_handler. rewrite Ho, Hd, Hu, He, Hsp, Hx, Hb. cbn.
  rewrite hasSelectedValue_seen by done. by rewrite Hb'.
Qed.

Lemma hasSelectedValue_seen_total (props : Props V) (entry now : State V) :
  shaped props now →
  ∃ b, hasSelectedValue props (if isMulti props then now
                               else readAfterAssignment props entry now) = Some b.
Proof.
  intros Hs. destruct (isMulti props) eqn:Hm.
  - destruct (availableOptions_total props now Hs) as (_ & _ & flat & _ & _ & Hf).
    by apply (flat_hasSelectedValue _ _ flat).
  - unfold hasSelectedValue. rewrite Hm. by eexists.
Qed.

(** X9: with the menu open, Enter, and Space on an empty search text, do
    what [setOption] does on the option at the focused index of the flat
    list; on a disabled option that is nothing. *)
Theorem enter_selects_focused_option
    (props : Props V) (e : KeyboardEvent) (st : State V) (flat : list (Option V)) (o : Option V) :
  menuOpen st = true →
  availableOptionsGroupedFlat props st = Some flat →
  elementAt flat (focusedOption st) = Some o →
  e = Enter ∨ (e = Space ∧ search st = "") →
  handleNavigation props e st = setOption props o st
  ∧ (disabled o = true → handleNavigation props e st = Some (tt, st, [])).
Proof.
  intros Ho Hf Hat He.
  assert (Hs : shaped props st).
  { intros Hm. destruct (availableOptions_total props st) as (avail & _ & _ & Ha & _ & _).
    - unfold availableOptionsGroupedFlat, availableOptionsGrouped, isGroupingEnabled in Hf.
      destruct (availableOptions props st) as [avail|] eqn:Ha.
      + destruct (availableOptions_multi _ _ _ Hm Ha) as (vs & Hsel & _). intros _. by exists vs.
      + by destruct (isGrouped props).
    - destruct (availableOptions_multi _ _ _ Hm Ha) as (vs & Hsel & _). by exists vs. }
  destruct (runs_setOption props o st Hs) as ([] & st' & out & Hrun & Hs').
  destruct (hasSelectedValue_seen_total props st st' Hs') as [b Hb].
  assert (Heq : handleNavigation props e st = setOption props o st).
  { rewrite Hrun. unfold handleNavigation.
    unfold when, read, getState, mbind, mret, handler_bind, handler_ret.
    rewrite Ho. destruct He as [->|[-> Hsearch]]; cbn.
    - rewrite Hf, Hat, Hrun. cbn. rewrite Hb. cbn. by rewrite !app_nil_r.
    - rewrite Hsearch. cbn. rewrite Hf, Hat, Hrun. cbn. rewrite Hb. cbn. by rewrite !app_nil_r. }
  split; [done|]. intros Hd. rewrite Heq. unfold setOption. by rewrite Hd.
Qed.

(** ** Selecting and undoing *)

Lemma filter_ne_snoc (v : V) (vs : list V) :
  v ∉ vs → List.filter (λ x, negb (bool_decide (x = v))) (vs ++ [v]) = vs.
Proof.
  intros Hn. rewrite List.filter_app, filter_ne_absent by done. cbn.
  rewrite bool_decide_eq_true_2 by done. cbn. by rewrite app_nil_r.
Qed.

(** X10: in multi mode on an enabled control, selecting an enabled option
    whose value is not selected yet and then deselecting it gives back the
    selection as it was, with both notifications emitted in that order. *)
Theorem select_then_deselect_restores_selection
    (props : Props V) (o : Option V) (st : State V) (vs : list V) :
  isMulti props = true → isDisabled props = false → disabled o = false →
  selected st = MArray vs → value o ∉ vs →
  (setOption props o;; removeOption props o) st =
    Some (tt, mkState (MArray vs) ""
                      (if closeOnSelect props then false else menuOpen st) (focusedOption st),
          [EmitOptionSelected o; EmitOptionDeselected (POption o)]).
Proof.
  intros Hm Hd Ho Hs Hn. unfold mbind, handler_bind.
  rewrite (setOption_multi _ _ _ vs) by done.
  rewrite (removeOption_enabled _ _ _ (vs ++ [value o])) by done.
  by rewrite filter_ne_snoc.
Qed.

(** X11: in multi mode with [closeOnSelect] off and the menu open,
    selecting an enabled option and then pressing Backspace gives back the
    selection as it was; only [optionSelected] is emitted. *)
Theorem select_then_backspace_restores_selection
    (props : Props V) (o : Option V) (st : State V) (vs : list V) :
  isMulti props = true → closeOnSelect props = false → disabled o = false →
  menuOpen st = true → selected st = MArray vs →
  (setOption props o;; handleNavigation props Backspace) st =
    Some (tt, mkState (MArray vs) "" true (focusedOption st), [EmitOptionSelected o]).
Proof.
  intros Hm Hc Ho Hopen Hs. unfold mbind, handler_bind.
  rewrite (setOption_multi _ _ _ vs) by done. rewrite Hc, Hopen.
  by rewrite (backspace_multi props _ vs (value o)).
Qed.

(** X12: in multi mode, after [setOption] of an enabled option no option
    with that value is in [availableOptions] or in the flat list. *)
Theorem selected_option_leaves_visible_set
    (props : Props V) (o : Option V) (st st' : State V) out :
  isMulti props = true → disabled o = false → shaped props st →
  setOption props o st = Some (tt, st', out) →
  ∃ avail flat,
    availableOptions props st' = Some avail
    ∧ availableOptionsGroupedFlat props st' = Some flat
    ∧ (∀ o', o' ∈ avail → value o' ≠ value o)
    ∧ (∀ o', o' ∈ flat → value o' ≠ value o).
Proof.
  intros Hm Hd Hs Hrun. destruct (Hs Hm) as [vs Hsel].
  rewrite (setOption_multi _ _ _ vs) in Hrun by done. injection Hrun as <- <-.
  set (st' := mkState _ _ _ _).
  destruct (availableOptions_total props st') as (avail & groups & flat & Ha & Hg & Hf);
    [intros _; by eexists|].
  exists avail, flat. repeat split; try done.
  all: destruct (availableOptions_multi _ _ _ Hm Ha) as (vs' & Hs' & Hex);
    injection Hs' as <-.
  - intros o' Ho' Heq. apply (Hex o' Ho'). rewrite Heq. apply elem_of_app. right. left.
  - intros o' Ho' Heq. apply (Hex o'); [by eapply flat_elem_of_available|].
    rewrite Heq. apply elem_of_app. right. left.
Qed.

Lemma filter_true {A} (f : A → bool) (l : list A) :
  (∀ x, f x = true) → List.filter f l = l.
Proof. intros Hf. induction l as [|x l IH]; cbn; [done|]. by rewrite Hf, IH. Qed.

(** X13: [clear] always returns; after it the menu is closed, the search
    text is empty, the focused index is as before, [availableOptions] is the
    whole list of displayed options and [selectedOptions] is empty. *)
Theorem clear_shows_every_option (props : Props V) (st : State V) :
  ∃ st' out,
    clear props st = Some (tt, st', out)
    ∧ menuOpen st' = false ∧ search st' = ""
    ∧ focusedOption st' = focusedOption st
    ∧ availableOptions props st' = Some (baseOptions props)
    ∧ selectedOptions props st' = [].
Proof.
  destruct (isMulti props) eqn:Hm.
  - rewrite clear_multi by done. eexists _, _. split; [done|]. repeat split.
    + unfold availableOptions, filterMultiSelectedValues, baseOptions. cbn.
      rewrite andb_false_r, Hm. by rewrite filter_true.
    + unfold selectedOptions. by rewrite Hm.
  - eexists _, _. split.
    + unfold clear. rewrite Hm. run_handler. done.
    + repeat split.
      * unfold availableOptions, baseOptions. cbn. by rewrite andb_false_r, Hm.
      * by apply selectedOptions_undefined.
Qed.

(** ** Typing in the search input *)

(** X14: typing in the search input: an unchanged text changes nothing
    and emits nothing; a changed text is stored and emitted as [search], and
    when the menu is closed and the text is not empty the menu is opened as
    by [openMenu]. *)
Theorem typing_emits_search_and_opens (props : Props V) (s : string) (st : State V) :
  (s = search st → perform props (InputText s) st = Some (tt, st, []))
  ∧ (s ≠ search st → menuOpen st = true ∨ s = "" →
       perform props (InputText s) st =
         Some (tt, mkState (selected st) s (menuOpen st) (focusedOption st), [EmitSearch s]))
  ∧ (s ≠ search st → menuOpen st = false → s ≠ "" →
       ∃ f, perform props (InputText s) st =
              Some (tt, mkState (selected st) s true f, [EmitSearch s])
            ∧ openMenu props (mkState (selected st) s false (focusedOption st))
              = Some (tt, mkState (selected st) s true f, [])).
Proof.
  unfold perform, withWatcher. repeat split.
  - intros ->. run_handler. rewrite String.eqb_refl. cbn. by rewrite state_eta.
  - intros Hne Hq. apply String.eqb_neq in Hne. run_handler. rewrite Hne. cbn.
    destruct Hq as [->| ->]; cbn; [by rewrite andb_false_r|done].
  - intros Hne Hc Hs. apply String.eqb_neq in Hne, Hs. run_handler.
    repeat (rewrite ?Hne, ?Hc, ?Hs; cbn). run_handler.
    destruct (shouldAutofocusOption props); cbn; by eexists.
Qed.

(** ** Arrow keys, continued *)

Lemma flat_ext (props : Props V) (st st' : State V) :
  selected st' = selected st → search st' = search st →
  availableOptionsGroupedFlat props st' = availableOptionsGroupedFlat props st.
Proof.
  intros Hsel Hs.
  unfold availableOptionsGroupedFlat, availableOptionsGrouped, isGroupingEnabled,
    availableOptions, filterMultiSelectedValues.
  by rewrite Hsel, Hs.
Qed.

Lemma next_prev_index (flat : list (Option V)) (cur r p : Z) :
  enabledAt flat cur →
  ((enabledAt flat r ∧ cur < r ∧ ∀ j, cur < j < r → ¬ enabledAt flat j)
   ∨ ((∀ j, cur < j → ¬ enabledAt flat j)
      ∧ enabledAt flat r ∧ ∀ j, j < r → ¬ enabledAt flat j)
   ∨ ((∀ j, ¬ enabledAt flat j) ∧ r = -1)) →
  ((enabledAt flat p ∧ p < r ∧ ∀ j, p < j < r → ¬ enabledAt flat j)
   ∨ ((∀ j, j < r → ¬ enabledAt flat j)
      ∧ enabledAt flat p ∧ ∀ j, p < j → ¬ enabledAt flat j)
   ∨ ((∀ j, ¬ enabledAt flat j) ∧ p = -1)) →
  p = cur.
Proof.
  intros Hcur Hnext Hprev.
  destruct Hnext as [(Hr & Hlt & Hgap)|[(Hafter & Hr & Hbefore)|[Hnone _]]];
    [| |by destruct (Hnone cur)].
  - destruct Hprev as [(Hp & Hpr & Hgap')|[(Hb & _)|[Hnone _]]];
      [|by destruct (Hb cur)|by destruct (Hnone cur)].
    destruct (Z.lt_trichotomy p cur) as [?|[?|?]]; [|done|].
    + destruct (Hgap' cur); [lia|done].
    + destruct (Hgap p); [lia|done].
  - assert (r ≤ cur) by (destruct (Z.le_gt_cases r cur); [done|]; destruct (Hafter r); [lia|done]).
    destruct Hprev as [(Hp & Hpr & _)|[(_ & Hp & Hlast)|[Hnone _]]];
      [by destruct (Hbefore p)| |by destruct (Hnone cur)].
    destruct (Z.lt_trichotomy p cur) as [?|[?|?]]; [|done|].
    + destruct (Hlast cur); [lia|done].
    + destruct (Hafter p); [lia|done].
Qed.

Lemma prev_next_index (flat : list (Option V)) (cur r p : Z) :
  enabledAt flat cur →
  ((enabledAt flat r ∧ r < cur ∧ ∀ j, r < j < cur → ¬ enabledAt flat j)
   ∨ ((∀ j, j < cur → ¬ enabledAt flat j)
      ∧ enabledAt flat r ∧ ∀ j, r < j → ¬ enabledAt flat j)
   ∨ ((∀ j, ¬ enabledAt flat j) ∧ r = -1)) →
  ((enabledAt flat p ∧ r < p ∧ ∀ j, r < j < p → ¬ enabledAt flat j)
   ∨ ((∀ j, r < j → ¬ enabledAt flat j)
      ∧ enabledAt flat p ∧ ∀ j, j < p → ¬ enabledAt flat j)
   ∨ ((∀ j, ¬ enabledAt flat j) ∧ p = -1)) →
  p = cur.
Proof.
  intros Hcur Hprev Hnext.
  destruct Hprev as [(Hr & Hlt & Hgap)|[(Hbefore & Hr & Hafter)|[Hnone _]]];
    [| |by destruct (Hnone cur)].
  - destruct Hnext as [(Hp & Hpr & Hgap')|[(Ha & _)|[Hnone _]]];
      [|by destruct (Ha cur)|by destruct (Hnone cur)].
    destruct (Z.lt_trichotomy p cur) as [?|[?|?]]; [|done|].
    + destruct (Hgap p); [lia|done].
    + destruct (Hgap' cur); [lia|done].
  - assert (cur ≤ r) by (destruct (Z.le_gt_cases cur r); [done|]; destruct (Hbefore r); [lia|done]).
    destruct Hnext as [(Hp & Hpr & _)|[(_ & Hp & Hfirst)|[Hnone _]]];
      [by destruct (Hafter p)| |by destruct (Hnone cur)].
    destruct (Z.lt_trichotomy p cur) as [?|[?|?]]; [|done|].
    + destruct (Hbefore p); [lia|done].
    + destruct (Hfirst cur); [lia|done].
Qed.

(** X15: with the menu open and the focused index on an enabled option,
    ArrowDown followed by ArrowUp, and ArrowUp followed by ArrowDown, return
    to the state they started from. *)
Theorem arrow_down_up_round_trip (props : Props V) (st : State V) (flat : list (Option V)) :
  menuOpen st = true → availableOptionsGroupedFlat props st = Some flat →
  enabledAt flat (focusedOption st) →
  (handleNavigation props ArrowDown;; handleNavigation props ArrowUp) st = Some (tt, st, [])
  ∧ (handleNavigation props ArrowUp;; handleNavigation props ArrowDown) st = Some (tt, st, []).
Proof.
  intros Ho Hf Hcur. unfold mbind, handler_bind. split.
  - rewrite (handleNavigation_ArrowDown _ _ _ Ho Hf).
    set (r := let n := findIndex _ flat in if n =? -1 then _ else n).
    erewrite (handleNavigation_ArrowUp _ (mkState _ _ _ r) flat);
      [|done|by rewrite <- Hf; apply flat_ext].
    pose proof (next_prev_index flat (focusedOption st) r _ Hcur
                  (next_index_spec flat (focusedOption st)) (prev_index_spec flat r)) as Hp.
    cbn zeta in Hp. cbn [focusedOption selected search menuOpen app]. rewrite Hp.
    by rewrite state_eta.
  - rewrite (handleNavigation_ArrowUp _ _ _ Ho Hf).
    set (r := let n := reduce _ flat (-1) in if n =? -1 then _ else n).
    erewrite (handleNavigation_ArrowDown _ (mkState _ _ _ r) flat);
      [|done|by rewrite <- Hf; apply flat_ext].
    pose proof (prev_next_index flat (focusedOption st) r _ Hcur
                  (prev_index_spec flat (focusedOption st)) (next_index_spec flat r)) as Hp.
    cbn zeta in Hp. cbn [focusedOption selected search menuOpen app]. rewrite Hp.
    by rewrite state_eta.
Qed.

Lemma enabledAt_all (flat : list (Option V)) (j : Z) :
  (∀ o, o ∈ flat → disabled o = false) →
  enabledAt flat j ↔ 0 ≤ j < Z.of_nat (length flat).
Proof.
  intros Hall. split.
  - intros (o & Ho & _). by apply elementAt_Some in Ho as [? _].
  - intros Hj. destruct (elementAt flat j) as [o|] eqn:Ho.
    + exists o. split; [done|]. apply Hall. apply elementAt_Some in Ho as [_ Ho].
      by eapply list_elem_of_lookup_2.
    + by apply elementAt_None in Ho.
Qed.

(** X16: with the menu open, a non-empty flat list without disabled
    options and the focused index between -1 and the last index, ArrowDown
    moves to the next index and from the last one to 0; ArrowUp moves to the
    previous index and from 0 or -1 to the last one. *)
Theorem arrows_cycle_when_all_enabled (props : Props V) (st : State V) (flat : list (Option V)) :
  menuOpen st = true → availableOptionsGroupedFlat props st = Some flat →
  (∀ o, o ∈ flat → disabled o = false) →
  let len := Z.of_nat (length flat) in
  let cur := focusedOption st in
  0 < len → -1 ≤ cur < len →
  handleNavigation props ArrowDown st =
    Some (tt, mkState (selected st) (search st) (menuOpen st)
                      (if cur + 1 <? len then cur + 1 else 0), [])
  ∧ handleNavigation props ArrowUp st =
      Some (tt, mkState (selected st) (search st) (menuOpen st)
                        (if cur <=? 0 then len - 1 else cur - 1), []).
Proof.
  intros Ho Hf Hall len cur Hlen Hcur.
  pose proof (enabledAt_all flat) as Hen.
  assert (Hin : ∀ j, 0 ≤ j < len → enabledAt flat j) by (intros j Hj; by apply Hen).
  assert (Hout : ∀ j, enabledAt flat j → 0 ≤ j < len) by (intros j Hj; by apply Hen).
  split.
  - rewrite (handleNavigation_ArrowDown _ _ _ Ho Hf). do 4 f_equal.
    pose proof (next_index_spec flat cur) as Hspec. cbn zeta in Hspec. fold cur.
    set (r := if findIndex _ flat =? -1 then _ else _) in *.
    destruct Hspec as [(Hr & Hlt & Hgap)|[(Hafter & Hr & Hbefore)|[Hnone _]]].
    + apply Hout in Hr. destruct (Z.ltb_spec (cur + 1) len); [|lia].
      destruct (Z.eq_dec r (cur + 1)); [done|]. destruct (Hgap (cur + 1)); [lia|].
      apply Hin. lia.
    + apply Hout in Hr. destruct (Z.ltb_spec (cur + 1) len).
      * destruct (Hafter (cur + 1)); [lia|]. apply Hin. lia.
      * destruct (Z.eq_dec r 0); [done|]. destruct (Hbefore 0); [lia|]. apply Hin. lia.
    + destruct (Hnone 0). apply Hin. lia.
  - rewrite (handleNavigation_ArrowUp _ _ _ Ho Hf). do 4 f_equal.
    pose proof (prev_index_spec flat cur) as Hspec. cbn zeta in Hspec. fold cur.
    set (r := if reduce _ flat (-1) =? -1 then _ else _) in *.
    destruct Hspec as [(Hr & Hlt & Hgap)|[(Hbefore & Hr & Hafter)|[Hnone _]]].
    + apply Hout in Hr. destruct (Z.leb_spec cur 0); [lia|].
      destruct (Z.eq_dec r (cur - 1)); [done|]. destruct (Hgap (cur - 1)); [lia|].
      apply Hin. lia.
    + apply Hout in Hr. destruct (Z.leb_spec cur 0).
      * destruct (Z.eq_dec r (len - 1)); [done|]. destruct (Hafter (len - 1)); [lia|].
        apply Hin. lia.
      * destruct (Hbefore 0); [lia|]. apply Hin. lia.
    + destruct (Hnone 0). apply Hin. lia.
Qed.

(** ** Invariants of the entry points *)

Lemma preserves_ret {A} (P : State V → Prop) (a : A) : preserves P (mret a : Handler V A).
Proof. by intros st a' st' out [= <- <- <-]. Qed.

Lemma preserves_bind {A B} (P : State V → Prop) (m : Handler V A) (k : A → Handler V B) :
  preserves P m → (∀ a, preserves P (k a)) → preserves P (m ≫= k).
Proof.
  intros Hm Hk st b st' out. unfold mbind, handler_bind.
  destruct (m st) as [[[a st1] out1]|] eqn:Hrun; [|discriminate].
  destruct (k a st1) as [[[b' st2] out2]|] eqn:Hrun'; [|discriminate].
  intros [= <- <- <-] HP. eapply Hk; [done|]. by eapply Hm.
Qed.

Lemma preserves_when (P : State V → Prop) (b : bool) (h : Handler V unit) :
  preserves P h → preserves P (when b h).
Proof. destruct b; [done|]. intros _. apply preserves_ret. Qed.

Lemma preserves_getState (P : State V → Prop) : preserves P (getState : Handler V (State V)).
Proof. by intros st a st' out [= <- <- <-]. Qed.

Lemma preserves_read {A} (P : State V → Prop) (c : State V → option A) : preserves P (read c).
Proof.
  intros st a st' out. unfold read. destruct (c st); [|discriminate]. by intros [= <- <- <-].
Qed.

Lemma preserves_emit (P : State V → Prop) (e : Emit V) : preserves P (emit e).
Proof. by intros st a st' out [= <- <- <-]. Qed.

(** Closed implies empty search. *)

Lemma quiet_setSelected (m : ModelValue V) : preserves quiet (setSelected m).
Proof. by intros st a st' out [= <- <- <-]. Qed.

Lemma quiet_setFocusedOption (i : Z) : preserves quiet (setFocusedOption i : Handler V unit).
Proof. by intros st a st' out [= <- <- <-]. Qed.

Lemma quiet_clear_search : preserves quiet (setSearch "" : Handler V unit).
Proof. intros st a st' out [= <- <- <-] _. by right. Qed.

Lemma quiet_open : preserves quiet (setMenuOpen true : Handler V unit).
Proof. intros st a st' out [= <- <- <-] _. by left. Qed.

Lemma quiet_close : preserves quiet (setMenuOpen false;; setSearch "" : Handler V unit).
Proof. intros st a st' out [= <- <- <-] _. by right. Qed.

Lemma quiet_search_then_close (b : bool) :
  preserves quiet (setSearch "";; when b (setMenuOpen false) : Handler V unit).
Proof. intros st a st' out. destruct b; intros [= <- <- <-] _; by right. Qed.

Create HintDb quiet.

#[local] Hint Resolve preserves_ret preserves_when preserves_getState preserves_read
  preserves_emit quiet_setSelected quiet_setFocusedOption quiet_clear_search quiet_open
  quiet_close quiet_search_then_close : quiet.

Ltac keeps_quiet :=
  repeat first
    [ progress cbv beta
    | solve [eauto with quiet]
    | apply preserves_bind; [|intros ?]
    | apply preserves_when
    | match goal with |- preserves _ (if ?b then _ else _) => destruct b end
    | match goal with |- preserves _ (match ?x with _ => _ end) => destruct x end ].

Lemma quiet_openMenu (props : Props V) : preserves quiet (openMenu props).
Proof. unfold openMenu. keeps_quiet. Qed.

Lemma quiet_setOption (props : Props V) (o : Option V) : preserves quiet (setOption props o).
Proof. unfold setOption. keeps_quiet. Qed.

Lemma quiet_handler (props : Props V) (a : Action V) :
  match a with
  | InputText _ => True
  | DocumentKeydown e => preserves quiet (handleNavigation props e)
  | DocumentClick outside => preserves quiet (handleClickOutside outside : Handler V unit)
  | InputKeydown e => preserves quiet (handleInputKeydown props e)
  | InputMousedown => preserves quiet (openMenu props)
  | SelectOption o => preserves quiet (setOption props o)
  | RemoveTag o => preserves quiet (removeOption props o)
  | ClickClear => preserves quiet (clear props)
  | ClickDropdown => preserves quiet (toggleMenu props)
  | ClickSingleValue => preserves quiet (when (negb (isDisabled props)) (openMenu props))
  end.
Proof.
  pose proof (quiet_openMenu props). pose proof (quiet_setOption props).
  destruct a; try done.
  - unfold handleNavigation. keeps_quiet.
  - unfold handleClickOutside. keeps_quiet.
  - unfold handleInputKeydown, handleInputSpace, closeMenu. keeps_quiet.
  - unfold removeOption. keeps_quiet.
  - unfold clear. keeps_quiet.
  - unfold toggleMenu, closeMenu. keeps_quiet.
  - keeps_quiet.
Qed.

Lemma onSearchChange_leaves_quiet (props : Props V) (st st' : State V) out :
  onSearchChange props st = Some (tt, st', out) → quiet st'.
Proof.
  unfold onSearchChange, openMenu. run_handler.
  destruct (String.eqb_spec (search st) "") as [Hs|Hs]; cbn.
  - intros [= <- <-]. by right.
  - destruct (menuOpen st) eqn:Ho; cbn.
    + intros [= <- <-]. by left.
    + destruct (shouldAutofocusOption props); intros [= <- <-]; by left.
Qed.

Lemma withWatcher_quiet (props : Props V) (h : Handler V unit) (st st' : State V) out :
  (∀ st1 out1, h st = Some (tt, st1, out1) → search st1 = search st → quiet st1) →
  withWatcher props h st = Some (tt, st', out) → quiet st'.
Proof.
  intros Hh. unfold withWatcher, when. unfold mbind, mret, handler_bind, handler_ret, getState.
  destruct (h st) as [[[[] st1] out1]|]; [|discriminate].
  destruct (String.eqb_spec (search st1) (search st)) as [Hsame|Hdiff]; cbn.
  - intros [= <- <-]. by eapply Hh.
  - destruct (onSearchChange props st1) as [[[[] st2] out2]|] eqn:Hw; [|discriminate].
    intros [= <- <-]. by eapply onSearchChange_leaves_quiet.
Qed.

Lemma perform_quiet (props : Props V) (a : Action V) : preserves quiet (perform props a).
Proof.
  intros st [] st' out Hrun Hq. unfold perform in Hrun.
  eapply withWatcher_quiet; [|exact Hrun].
  intros st1 out1 Hh Hsame. pose proof (quiet_handler props a) as Hpres.
  destruct a; try by eapply Hpres.
  injection Hh as <- <-. cbn in Hsame. subst s. by rewrite state_eta.
Qed.

Lemma runs_performAll (props : Props V) (l : list (Action V)) : runs props (performAll props l).
Proof.
  induction l as [|a l IH]; cbn; [apply runs_ret|].
  apply runs_bind; [apply runs_perform|done].
Qed.

Lemma preserves_performAll (P : State V → Prop) (props : Props V) (l : list (Action V)) :
  (∀ a, preserves P (perform props a)) → preserves P (performAll props l).
Proof.
  intros Hp. induction l as [|a l IH]; cbn; [apply preserves_ret|].
  apply preserves_bind; [apply Hp|done].
Qed.

(** X17: from a state of the right shape in which a closed menu has an
    empty search text, every sequence of entry points returns, and in the
    state it leaves a closed menu again has an empty search text. *)
Theorem closed_menu_has_empty_search
    (props : Props V) (l : list (Action V)) (st : State V) :
  shaped props st → (menuOpen st = false → search st = "") →
  ∃ st' out, performAll props l st = Some (tt, st', out)
             ∧ (menuOpen st' = false → search st' = "").
Proof.
  intros Hs Hq. destruct (runs_performAll props l st Hs) as ([] & st' & out & Hrun & _).
  exists st', out. split; [done|].
  assert (Hq' : quiet st').
  { eapply (preserves_performAll quiet); [apply perform_quiet|done|].
    unfold quiet. destruct (menuOpen st); [by left|right; by apply Hq]. }
  intros Hc. destruct Hq' as [Ho|?]; [congruence|done].
Qed.

(** The shape of the model. *)

Lemma valid_shaped (props : Props V) (st : State V) : valid props st → shaped props st.
Proof.
  unfold valid, validator, shaped. intros Hv Hm. rewrite Hm in Hv.
  destruct (selected st); try discriminate. by eexists.
Qed.

Lemma valid_setSearch (props : Props V) (s : string) : preserves (valid props) (setSearch s).
Proof. by intros st a st' out [= <- <- <-]. Qed.

Lemma valid_setMenuOpen (props : Props V) (b : bool) : preserves (valid props) (setMenuOpen b).
Proof. by intros st a st' out [= <- <- <-]. Qed.

Lemma valid_setFocusedOption (props : Props V) (i : Z) :
  preserves (valid props) (setFocusedOption i).
Proof. by intros st a st' out [= <- <- <-]. Qed.

Lemma valid_setSelected_array (props : Props V) (vs : list V) :
  isMulti props = true → preserves (valid props) (setSelected (MArray vs)).
Proof. intros Hm st a st' out [= <- <- <-] _. unfold valid, validator. by rewrite Hm. Qed.

Lemma valid_setSelected_scalar (props : Props V) (v : V) :
  isMulti props = false → preserves (valid props) (setSelected (MScalar v)).
Proof. intros Hm st a st' out [= <- <- <-] _. unfold valid, validator. by rewrite Hm. Qed.

Lemma valid_setSelected_undefined (props : Props V) :
  isMulti props = false → preserves (valid props) (setSelected MUndefined).
Proof. intros Hm st a st' out [= <- <- <-] _. unfold valid, validator. by rewrite Hm. Qed.

Create HintDb valid.

#[local] Hint Resolve preserves_ret preserves_when preserves_getState preserves_read
  preserves_emit valid_setSearch valid_setMenuOpen valid_setFocusedOption
  valid_setSelected_array valid_setSelected_scalar valid_setSelected_undefined : valid.

Ltac keeps_valid :=
  repeat first
    [ progress cbv beta
    | solve [eauto with valid]
    | apply preserves_bind; [|intros ?]
    | apply preserves_when
    | match goal with |- preserves _ (if ?b then _ else _) => destruct b eqn:? end
    | match goal with |- preserves _ (match ?x with _ => _ end) => destruct x end ].

Lemma valid_openMenu (props : Props V) : preserves (valid props) (openMenu props).
Proof. unfold openMenu. keeps_valid. Qed.

Lemma valid_setOption (props : Props V) (o : Option V) :
  preserves (valid props) (setOption props o).
Proof. unfold setOption. keeps_valid. Qed.

Lemma valid_perform (props : Props V) (a : Action V) : preserves (valid props) (perform props a).
Proof.
  pose proof (valid_openMenu props). pose proof (valid_setOption props).
  unfold perform, withWatcher, onSearchChange.
  apply preserves_bind; [eauto with valid|intros st0].
  apply preserves_bind; [|intros ?; keeps_valid].
  destruct a.
  - unfold handleNavigation. keeps_valid.
  - unfold handleClickOutside. keeps_valid.
  - unfold handleInputKeydown, handleInputSpace, closeMenu. keeps_valid.
  - done.
  - eauto with valid.
  - done.
  - unfold removeOption. destruct (isMulti props) eqn:Hm; cbn; keeps_valid.
  - unfold clear. keeps_valid.
  - unfold toggleMenu, closeMenu. keeps_valid.
  - keeps_valid.
Qed.

(** X18: from a model that the validator accepts (an array in multi mode,
    no array in single mode), every sequence of entry points returns and
    leaves a model that the validator accepts. *)
Theorem model_keeps_shape_of_mode (props : Props V) (l : list (Action V)) (st : State V) :
  validator props (selected st) = true →
  ∃ st' out, performAll props l st = Some (tt, st', out)
             ∧ validator props (selected st') = true.
Proof.
  intros Hv.
  destruct (runs_performAll props l st (valid_shaped _ _ Hv)) as ([] & st' & out & Hrun & _).
  exists st', out. split; [done|].
  by eapply (preserves_performAll (valid props)); [apply valid_perform| |].
Qed.

(** ** What the keyboard handler emits *)

Lemma emitsOnly_ret {A} (Q : Emit V → Prop) (a : A) : emitsOnly Q (mret a : Handler V A).
Proof. intros st a' st' out [= <- <- <-]. constructor. Qed.

Lemma emitsOnly_bind {A B} (Q : Emit V → Prop) (m : Handler V A) (k : A → Handler V B) :
  emitsOnly Q m → (∀ a, emitsOnly Q (k a)) → emitsOnly Q (m ≫= k).
Proof.
  intros Hm Hk st b st' out. unfold mbind, handler_bind.
  destruct (m st) as [[[a st1] out1]|] eqn:Hrun; [|discriminate].
  destruct (k a st1) as [[[b' st2] out2]|] eqn:Hrun'; [|discriminate].
  intros [= <- <- <-]. apply Forall_app. split; [by eapply Hm|by eapply Hk].
Qed.

Lemma emitsOnly_when (Q : Emit V → Prop) (b : bool) (h : Handler V unit) :
  emitsOnly Q h → emitsOnly Q (when b h).
Proof. destruct b; [done|]. intros _. apply emitsOnly_ret. Qed.

Lemma emitsOnly_getState (Q : Emit V → Prop) : emitsOnly Q (getState : Handler V (State V)).
Proof. intros st a st' out [= <- <- <-]. constructor. Qed.

Lemma emitsOnly_read {A} (Q : Emit V → Prop) (c : State V → option A) : emitsOnly Q (read c).
Proof.
  intros st a st' out. unfold read. destruct (c st); [|discriminate].
  intros [= <- <- <-]. constructor.
Qed.

Lemma emitsOnly_emit (Q : Emit V → Prop) (e : Emit V) : Q e → emitsOnly Q (emit e).
Proof. intros He st a st' out [= <- <- <-]. by repeat constructor. Qed.

Lemma emitsOnly_setSelected (Q : Emit V → Prop) (m : ModelValue V) :
  emitsOnly Q (setSelected m).
Proof. intros st a st' out [= <- <- <-]. constructor. Qed.

Lemma emitsOnly_setSearch (Q : Emit V → Prop) (s : string) :
  emitsOnly Q (setSearch s : Handler V unit).
Proof. intros st a st' out [= <- <- <-]. constructor. Qed.

Lemma emitsOnly_setMenuOpen (Q : Emit V → Prop) (b : bool) :
  emitsOnly Q (setMenuOpen b : Handler V unit).
Proof. intros st a st' out [= <- <- <-]. constructor. Qed.

Lemma emitsOnly_setFocusedOption (Q : Emit V → Prop) (i : Z) :
  emitsOnly Q (setFocusedOption i : Handler V unit).
Proof. intros st a st' out [= <- <- <-]. constructor. Qed.

Create HintDb emits.

#[local] Hint Resolve emitsOnly_ret emitsOnly_when emitsOnly_getState emitsOnly_read
  emitsOnly_setSelected emitsOnly_setSearch emitsOnly_setMenuOpen
  emitsOnly_setFocusedOption : emits.

Ltac emits_only :=
  repeat first
    [ progress cbv beta
    | solve [eauto with emits]
    | apply emitsOnly_bind; [|intros ?]
    | apply emitsOnly_when
    | match goal with |- emitsOnly _ (if ?b then _ else _) => destruct b eqn:? end
    | match goal with |- emitsOnly _ (match ?x with _ => _ end) => destruct x end ].

Lemma emitsOnly_setOption (props : Props V) (o : Option V) :
  emitsOnly selectionOfEnabled (setOption props o).
Proof.
  unfold setOption. destruct (disabled o) eqn:Hd; [apply emitsOnly_ret|].
  emits_only. apply emitsOnly_emit. by exists o.
Qed.

(** X19: whatever the key and the state, the keyboard handler emits
    nothing but [optionSelected] notifications of options that are not
    disabled, and nothing at all unless the key is Enter or the code is
    Space. *)
Theorem keyboard_emits_selections_only
    (props : Props V) (e : KeyboardEvent) (st st' : State V) (out : list (Emit V)) :
  handleNavigation props e st = Some (tt, st', out) →
  Forall selectionOfEnabled out
  ∧ (key e ≠ "Enter" → code e ≠ "Space" → out = []).
Proof.
  intros Hrun. split.
  - assert (Hall : emitsOnly selectionOfEnabled (handleNavigation props e)).
    { pose proof (emitsOnly_setOption props). unfold handleNavigation. emits_only. }
    by eapply Hall.
  - intros He Hc. apply String.eqb_neq in He, Hc.
    assert (Hnone : emitsOnly (λ _, False) (handleNavigation props e)).
    { unfold handleNavigation. rewrite He, Hc. cbn [andb]. emits_only. }
    specialize (Hnone _ _ _ _ Hrun). by destruct Hnone.
Qed.
End Coverage.

(** * Further concrete runs *)

Section CoverageRuns.
Import Samples Fixtures.

Lemma availableOptions_filters_witness :
  availableOptions users aliceCharlie = Some [Bob; David]
  ∧ sublist [Bob; David] (baseOptions users).
Proof.
  split; [reflexivity|].
  exact (proj1 (availableOptions_filters users aliceCharlie [Bob; David] eq_refl)).
Defined.

Lemma flat_is_permutation_of_available_witness :
  availableOptions library browsing = Some [Wonderland; Earthsea; Stone; Chamber]
  ∧ availableOptionsGroupedFlat library browsing = Some [Wonderland; Stone; Earthsea; Chamber]
  ∧ [Wonderland; Stone; Earthsea; Chamber] ≡ₚ [Wonderland; Earthsea; Stone; Chamber].
Proof.
  split; [reflexivity|]. split; [reflexivity|].
  apply (flat_is_permutation_of_available library browsing); reflexivity.
Defined.

Lemma groups_partition_by_name_witness :
  availableOptions library browsing = Some [Wonderland; Earthsea; Stone; Chamber]
  ∧ availableOptionsGrouped library browsing
      = Some [mkGroup "Group 1" [Wonderland; Stone]; mkGroup "Group 2" [Earthsea; Chamber]]
  ∧ isGrouped library = true
  ∧ existsb hasGroupName [Wonderland; Earthsea; Stone; Chamber] = true
  ∧ NoDup (map group_name
             [mkGroup "Group 1" [Wonderland; Stone]; mkGroup "Group 2" [Earthsea; Chamber]]).
Proof.
  split; [reflexivity|]. split; [reflexivity|]. split; [reflexivity|]. split; [reflexivity|].
  exact (proj1 (groups_partition_by_name library browsing _ _ eq_refl eq_refl eq_refl eq_refl)).
Defined.

Lemma ungrouped_single_default_group_witness :
  availableOptions books mounted = Some [A; B; C]
  ∧ isGrouped books = false
  ∧ (availableOptionsGrouped books mounted = Some [mkGroup "default" [A; B; C]]
     ∧ availableOptionsGroupedFlat books mounted = Some [A; B; C]).
Proof.
  split; [reflexivity|]. split; [reflexivity|].
  apply (ungrouped_single_default_group books mounted [A; B; C]); [reflexivity|].
  left. reflexivity.
Defined.

Lemma selectedOptions_lookup_witness :
  isMulti accounts = true ∧ selected aliceSix = MArray [1; 6]
  ∧ [1; 6] !! 1%nat = Some 6
  ∧ selectedOptions accounts aliceSix = [Some Alice; Some Admin]
  ∧ ((∃ o (k : nat),
        selectedOptions accounts aliceSix !! 1%nat = Some (Some o)
        ∧ options accounts !! k = Some o ∧ value o = 6
        ∧ ∀ j o', (j < k)%nat → options accounts !! j = Some o' → value o' ≠ 6)
     ∨ (selectedOptions accounts aliceSix !! 1%nat = Some None
        ∧ ∀ o, o ∈ options accounts → value o ≠ 6)).
Proof.
  split; [reflexivity|]. split; [reflexivity|]. split; [reflexivity|]. split; [reflexivity|].
  exact (proj2 (proj2 (selectedOptions_lookup accounts aliceSix) [1; 6] eq_refl eq_refl)
               1%nat 6 eq_refl).
Defined.

Lemma openMenu_seeds_focus_from_options_witness :
  ∃ f, openMenu books mounted = Some (tt, mkState (selected mounted) (search mounted) true f, []).
Proof.
  destruct (openMenu_seeds_focus_from_options books mounted) as (f & Hrun & _).
  exists f. exact Hrun.
Defined.

Lemma closing_paths_agree_witness :
  menuOpen typedAb = true ∧ shaped books typedAb
  ∧ perform books (DocumentKeydown Escape) typedAb
      = Some (tt, mkState (MScalar "a") "" false 0, [EmitSearch ""]).
Proof.
  assert (Hshaped : shaped books typedAb) by (intros Hm; discriminate Hm).
  split; [reflexivity|]. split; [exact Hshaped|].
  destruct (closing_paths_agree books typedAb) as (_ & _ & _ & _ & Hesc).
  exact (Hesc eq_refl Hshaped).
Defined.

Lemma other_keys_do_nothing_witness :
  shaped books pickedA
  ∧ handleNavigation books (mkKey "a" "KeyA") pickedA = Some (tt, pickedA, []).
Proof.
  assert (Hshaped : shaped books pickedA) by (intros Hm; discriminate Hm).
  split; [exact Hshaped|].
  apply (other_keys_do_nothing books (mkKey "a" "KeyA") pickedA Hshaped).
  right. repeat split; discriminate.
Defined.

Lemma enter_selects_focused_option_witness :
  menuOpen pickedA = true
  ∧ availableOptionsGroupedFlat books pickedA = Some [A; B; C]
  ∧ elementAt [A; B; C] (focusedOption pickedA) = Some A
  ∧ handleNavigation books Enter pickedA = setOption books A pickedA.
Proof.
  split; [reflexivity|]. split; [reflexivity|]. split; [reflexivity|].
  refine (proj1 (enter_selects_focused_option books Enter pickedA [A; B; C] A
                   eq_refl eq_refl eq_refl _)).
  left. reflexivity.
Defined.

Lemma select_then_deselect_restores_selection_witness :
  isMulti users = true ∧ isDisabled users = false ∧ disabled David = false
  ∧ selected aliceCharlie = MArray [1; 3] ∧ (value David ∉ [1; 3])
  ∧ (setOption users David;; removeOption users David) aliceCharlie
      = Some (tt, mkState (MArray [1; 3]) "" true 0,
              [EmitOptionSelected David; EmitOptionDeselected (POption David)]).
Proof.
  assert (Habsent : value David ∉ [1; 3]).
  { intros Hin. apply list_elem_of_In in Hin. cbn in Hin. lia. }
  split; [reflexivity|]. split; [reflexivity|]. split; [reflexivity|].
  split; [reflexivity|]. split; [exact Habsent|].
  apply (select_then_deselect_restores_selection users David aliceCharlie [1; 3]);
    first [reflexivity|exact Habsent].
Defined.

Lemma select_then_backspace_restores_selection_witness :
  isMulti users = true ∧ closeOnSelect users = false ∧ disabled David = false
  ∧ menuOpen aliceCharlie = true ∧ selected aliceCharlie = MArray [1; 3]
  ∧ (setOption users David;; handleNavigation users Backspace) aliceCharlie
      = Some (tt, mkState (MArray [1; 3]) "" true 0, [EmitOptionSelected David]).
Proof.
  split; [reflexivity|]. split; [reflexivity|]. split; [reflexivity|].
  split; [reflexivity|]. split; [reflexivity|].
  apply (select_then_backspace_restores_selection users David aliceCharlie [1; 3]); reflexivity.
Defined.

Lemma selected_option_leaves_visible_set_witness :
  isMulti users = true ∧ disabled Bob = false ∧ shaped users aliceCharlie
  ∧ setOption users Bob aliceCharlie
      = Some (tt, mkState (MArray [1; 3; 2]) "" true 0, [EmitOptionSelected Bob])
  ∧ ∃ avail flat,
      availableOptions users (mkState (MArray [1; 3; 2]) "" true 0) = Some avail
      ∧ availableOptionsGroupedFlat users (mkState (MArray [1; 3; 2]) "" true 0) = Some flat
      ∧ (∀ o', o' ∈ avail → value o' ≠ value Bob)
      ∧ (∀ o', o' ∈ flat → value o' ≠ value Bob).
Proof.
  assert (Hshaped : shaped users aliceCharlie) by (intros _; exists [1; 3]; reflexivity).
  split; [reflexivity|]. split; [reflexivity|]. split; [exact Hshaped|]. split; [reflexivity|].
  apply (selected_option_leaves_visible_set users Bob aliceCharlie
           (mkState (MArray [1; 3; 2]) "" true 0) [EmitOptionSelected Bob]
           eq_refl eq_refl Hshaped).
  reflexivity.
Defined.

Lemma clear_shows_every_option_witness :
  ∃ st' out, clear users aliceCharlie = Some (tt, st', out)
             ∧ availableOptions users st' = Some (baseOptions users).
Proof.
  destruct (clear_shows_every_option users aliceCharlie)
    as (st' & out & Hrun & _ & _ & _ & Havail & _).
  exists st', out. split; [exact Hrun|exact Havail].
Defined.

Lemma typing_emits_search_and_opens_witness :
  "har" ≠ search mounted ∧ menuOpen mounted = false ∧ "har" ≠ ""
  ∧ ∃ f, perform books (InputText "har") mounted
           = Some (tt, mkState (selected mounted) "har" true f, [EmitSearch "har"]).
Proof.
  split; [discriminate|]. split; [reflexivity|]. split; [discriminate|].
  destruct (typing_emits_search_and_opens books "har" mounted) as (_ & _ & Hopen).
  destruct Hopen as (f & Hrun & _); [discriminate|reflexivity|discriminate|].
  exists f. exact Hrun.
Defined.

Lemma arrow_down_up_round_trip_witness :
  menuOpen pickedA = true ∧ availableOptionsGroupedFlat books pickedA = Some [A; B; C]
  ∧ enabledAt [A; B; C] (focusedOption pickedA)
  ∧ (handleNavigation books ArrowDown;; handleNavigation books ArrowUp) pickedA
      = Some (tt, pickedA, []).
Proof.
  assert (Henabled : enabledAt [A; B; C] (focusedOption pickedA)).
  { exists A. split; reflexivity. }
  split; [reflexivity|]. split; [reflexivity|]. split; [exact Henabled|].
  exact (proj1 (arrow_down_up_round_trip books pickedA [A; B; C] eq_refl eq_refl Henabled)).
Defined.

Lemma arrows_cycle_when_all_enabled_witness :
  menuOpen pickedA = true ∧ availableOptionsGroupedFlat books pickedA = Some [A; B; C]
  ∧ (∀ o, o ∈ [A; B; C] → disabled o = false)
  ∧ handleNavigation books ArrowUp pickedA = Some (tt, mkState (MScalar "a") "" true 2, []).
Proof.
  assert (Hall : ∀ o, o ∈ [A; B; C] → disabled o = false).
  { intros o Ho. apply list_elem_of_In in Ho. cbn in Ho.
    destruct Ho as [<-|[<-|[<-|[]]]]; reflexivity. }
  split; [reflexivity|]. split; [reflexivity|]. split; [exact Hall|].
  refine (proj2 (arrows_cycle_when_all_enabled books pickedA [A; B; C]
                   eq_refl eq_refl Hall _ _)); cbn; lia.
Defined.

Lemma closed_menu_has_empty_search_witness :
  shaped books mounted ∧ (menuOpen mounted = false → search mounted = "")
  ∧ ∃ st' out,
      performAll books [InputText "har"; DocumentKeydown ArrowDown; DocumentKeydown Enter]
                 mounted = Some (tt, st', out)
      ∧ (menuOpen st' = false → search st' = "").
Proof.
  assert (Hshaped : shaped books mounted) by (intros Hm; discriminate Hm).
  split; [exact Hshaped|]. split; [reflexivity|].
  apply (closed_menu_has_empty_search books _ mounted Hshaped). reflexivity.
Defined.

Lemma model_keeps_shape_of_mode_witness :
  validator users (selected aliceCharlie) = true
  ∧ ∃ st' out,
      performAll users [SelectOption Bob; DocumentKeydown Backspace; ClickClear]
                 aliceCharlie = Some (tt, st', out)
      ∧ validator users (selected st') = true.
Proof.
  split; [reflexivity|].
  apply (model_keeps_shape_of_mode users _ aliceCharlie). reflexivity.
Defined.

Lemma keyboard_emits_selections_only_witness :
  handleNavigation books Enter pickedA
    = Some (tt, mkState (MScalar "a") "" false 0, [EmitOptionSelected A])
  ∧ Forall selectionOfEnabled [EmitOptionSelected A].
Proof.
  split; [reflexivity|].
  exact (proj1 (keyboard_emits_selections_only books Enter pickedA _ _ eq_refl)).
Defined.
End CoverageRuns.
